(** * Webhook signature verification of the ClawdNet SDK

    A shallow embedding of [verifyWebhookSignature] (src/index.ts, lines
    259-283) together with the JavaScript and Node.js primitives it calls,
    followed by the properties of the routine.

    Conventions of the embedding.

    - A JavaScript string is represented by the sequence of bytes of its
      UTF-8 encoding, as a [string] of the Standard Library; a string
      with an unpaired surrogate has no such representation.  The routine
      only cuts strings at the ASCII characters [,], [t], [=], [v], [1],
      which never occur inside a multi-byte UTF-8 sequence, and both
      [Buffer.from] and [Hmac.update] encode a string as UTF-8, so the
      routine acts on this representation directly.
    - A JavaScript number is represented by [number]: NaN, the two
      infinities, or an integer.  Every number the routine computes with is
      integer valued (a floored clock, the result of [parseInt], their
      difference); integers are exact in a double below 2^53 in magnitude,
      which covers every clock value and every timestamp text of at most
      15 digits; a longer digit run is read here without the rounding of
      a double.  A statement that fixes the value of a timestamp or of a
      tolerance is made under [exact_double] and [time_value], the range
      in which the numbers of the routine are these integers.  For a
      fractional tolerance [x] the test [d > x] on an integer [d] is
      the test [d > floor x], so an integer tolerance loses nothing.
    - A call either returns a boolean or throws: [completion]. *)

From Stdlib Require Import ZArith List String Ascii Bool Lia Permutation.
Import ListNotations.

Local Open Scope string_scope.
Local Open Scope list_scope.
Local Open Scope Z_scope.

(* ================================================================== *)
(** ** JavaScript numbers *)

Module JSNumber.

Inductive number : Type :=
| NaN
| NegInf
| Num (z : Z)
| PosInf.

(** [a - b].  On integers this is the exact difference, which is the
    double the subtraction gives when its magnitude is at most 2^53. *)
Definition sub (a b : number) : number :=
  match a, b with
  | NaN, _ | _, NaN => NaN
  | Num x, Num y => Num (x - y)
  | PosInf, PosInf => NaN
  | NegInf, NegInf => NaN
  | PosInf, _ => PosInf
  | NegInf, _ => NegInf
  | Num _, PosInf => NegInf
  | Num _, NegInf => PosInf
  end.

(** [Math.abs] *)
Definition abs (a : number) : number :=
  match a with
  | NaN => NaN
  | NegInf | PosInf => PosInf
  | Num x => Num (Z.abs x)
  end.

(** [a > b]: every comparison with NaN is false. *)
Definition gt (a b : number) : bool :=
  match a, b with
  | NaN, _ | _, NaN => false
  | Num x, Num y => y <? x
  | PosInf, PosInf => false
  | PosInf, _ => true
  | NegInf, _ => false
  | Num _, NegInf => true
  | Num _, PosInf => false
  end.

(** [Math.floor(ms / 1000)] for an integer number of milliseconds. *)
Definition floor_div_1000 (ms : Z) : number := Num (ms / 1000).

End JSNumber.

(* ================================================================== *)
(** ** SHA-256 (FIPS 180-4), HMAC (RFC 2104) and hexadecimal rendering:
       what [crypto.createHmac('sha256', key).update(msg).digest('hex')]
       computes. *)

Module Crypto.

Definition w32 (x : Z) : Z := Z.land x 0xFFFFFFFF.
Definition add32 (x y : Z) : Z := w32 (x + y).
Definition rotr (n x : Z) : Z :=
  Z.lor (Z.shiftr x n) (w32 (Z.shiftl x (32 - n))).
Definition not32 (x : Z) : Z := Z.lxor x 0xFFFFFFFF.

Definition Ch (x y z : Z) : Z := Z.lxor (Z.land x y) (Z.land (not32 x) z).
Definition Maj (x y z : Z) : Z :=
  Z.lxor (Z.lxor (Z.land x y) (Z.land x z)) (Z.land y z).
Definition bsig0 (x : Z) : Z := Z.lxor (Z.lxor (rotr 2 x) (rotr 13 x)) (rotr 22 x).
Definition bsig1 (x : Z) : Z := Z.lxor (Z.lxor (rotr 6 x) (rotr 11 x)) (rotr 25 x).
Definition ssig0 (x : Z) : Z := Z.lxor (Z.lxor (rotr 7 x) (rotr 18 x)) (Z.shiftr x 3).
Definition ssig1 (x : Z) : Z := Z.lxor (Z.lxor (rotr 17 x) (rotr 19 x)) (Z.shiftr x 10).

(** The round constants: the first 32 bits of the fractional part of the
    cube root of each of the first 64 primes.  [root_bits k deg n r]
    refines [r], bit [k - 1] downwards, to the largest integer whose
    [deg]-th power does not exceed [n]. *)
Fixpoint root_bits (k : nat) (deg n r : Z) : Z :=
  match k with
  | O => r
  | S k' =>
      let c := r + 2 ^ Z.of_nat k' in
      root_bits k' deg n (if c ^ deg <=? n then c else r)
  end.

Definition frac_root (deg p : Z) : Z :=
  w32 (root_bits 36 deg (p * 2 ^ (32 * deg)) 0).

Definition primes : list Z :=
  [ 2; 3; 5; 7; 11; 13; 17; 19; 23; 29; 31; 37; 41; 43; 47; 53;
    59; 61; 67; 71; 73; 79; 83; 89; 97; 101; 103; 107; 109; 113; 127; 131;
    137; 139; 149; 151; 157; 163; 167; 173; 179; 181; 191; 193; 197; 199;
    211; 223; 227; 229; 233; 239; 241; 251; 257; 263; 269; 271; 277; 281;
    283; 293; 307; 311 ].

Definition K : list Z := Eval vm_compute in map (frac_root 3) primes.

(** The eight working words. *)
Record hash : Type := mkHash {
  ha : Z; hb : Z; hc : Z; hd : Z; he : Z; hf : Z; hg : Z; hh : Z
}.

Definition H0 : hash :=
  mkHash 0x6a09e667 0xbb67ae85 0x3c6ef372 0xa54ff53a
         0x510e527f 0x9b05688c 0x1f83d9ab 0x5be0cd19.

(** Message schedule: [w] holds W_0 .. W_{t-1}; [n] more words are added. *)
Fixpoint schedule (n : nat) (w : list Z) : list Z :=
  match n with
  | O => w
  | S n' =>
      let t := List.length w in
      let x := add32 (add32 (ssig1 (nth (t - 2) w 0)) (nth (t - 7) w 0))
                     (add32 (ssig0 (nth (t - 15) w 0)) (nth (t - 16) w 0)) in
      schedule n' (w ++ [x])
  end.

Definition round (s : hash) (kw : Z * Z) : hash :=
  let t1 := add32 (add32 (add32 (add32 (hh s) (bsig1 (he s)))
                                (Ch (he s) (hf s) (hg s)))
                         (fst kw))
                  (snd kw) in
  let t2 := add32 (bsig0 (ha s)) (Maj (ha s) (hb s) (hc s)) in
  mkHash (add32 t1 t2) (ha s) (hb s) (hc s)
         (add32 (hd s) t1) (he s) (hf s) (hg s).

Definition process_block (H : hash) (block : list Z) : hash :=
  let s := fold_left round (combine K (schedule 48 block)) H in
  mkHash (add32 (ha H) (ha s)) (add32 (hb H) (hb s))
         (add32 (hc H) (hc s)) (add32 (hd H) (hd s))
         (add32 (he H) (he s)) (add32 (hf H) (hf s))
         (add32 (hg H) (hg s)) (add32 (hh H) (hh s)).

(** Big-endian bytes of a 32-bit word, and of a 64-bit length. *)
Definition word_bytes (x : Z) : list Z :=
  [ Z.land (Z.shiftr x 24) 255; Z.land (Z.shiftr x 16) 255;
    Z.land (Z.shiftr x 8) 255; Z.land x 255 ].

Definition length_bytes (bits : Z) : list Z :=
  word_bytes (Z.shiftr bits 32) ++ word_bytes bits.

Definition pad (msg : list Z) : list Z :=
  let l := Z.of_nat (List.length msg) in
  msg ++ [0x80] ++ repeat 0 (Z.to_nat ((55 - l) mod 64))
      ++ length_bytes (8 * l).

Fixpoint words (bs : list Z) : list Z :=
  match bs with
  | a :: b :: c :: d :: r =>
      Z.lor (Z.shiftl a 24) (Z.lor (Z.shiftl b 16) (Z.lor (Z.shiftl c 8) d))
      :: words r
  | _ => []
  end.

Fixpoint blocks (n : nat) (ws : list Z) (H : hash) : hash :=
  match n with
  | O => H
  | S n' => blocks n' (skipn 16 ws) (process_block H (firstn 16 ws))
  end.

Definition hash_bytes (H : hash) : list Z :=
  word_bytes (ha H) ++ word_bytes (hb H) ++ word_bytes (hc H)
  ++ word_bytes (hd H) ++ word_bytes (he H) ++ word_bytes (hf H)
  ++ word_bytes (hg H) ++ word_bytes (hh H).

Definition sha256 (msg : list Z) : list Z :=
  let ws := words (pad msg) in
  hash_bytes (blocks (Nat.div (List.length ws) 16) ws H0).

(** HMAC with block size 64. *)
Definition hmac_key (key : list Z) : list Z :=
  let k := if (64 <? Z.of_nat (List.length key)) then sha256 key else key in
  k ++ repeat 0 (64 - List.length k)%nat.

Definition hmac_sha256 (key msg : list Z) : list Z :=
  let k := hmac_key key in
  sha256 (map (Z.lxor 0x5c) k ++ sha256 (map (Z.lxor 0x36) k ++ msg)).

(** [Buffer.from(s)], and the bytes [Hmac.update(s)] and a string key
    contribute: the UTF-8 bytes of the string, which the string is. *)
Definition bytes_of_string (s : string) : list Z :=
  map (fun c => Z.of_N (N_of_ascii c)) (list_ascii_of_string s).

(** [digest('hex')]: two lowercase hexadecimal digits per byte. *)
Definition hex_digit (n : Z) : ascii :=
  match String.get (Z.to_nat (n mod 16)) "0123456789abcdef" with
  | Some c => c
  | None => "0"%char
  end.

Fixpoint hex (bs : list Z) : string :=
  match bs with
  | [] => EmptyString
  | b :: r => String (hex_digit (b / 16)) (String (hex_digit b) (hex r))
  end.

(** [createHmac('sha256', key).update(msg).digest('hex')] *)
Definition hmac_sha256_hex (key msg : string) : string :=
  hex (hmac_sha256 (bytes_of_string key) (bytes_of_string msg)).

End Crypto.

(* ================================================================== *)
(** ** Outcome of a call *)

Inductive error : Type :=
| RangeError.   (* ERR_CRYPTO_TIMING_SAFE_EQUAL_LENGTH *)

Inductive completion : Type :=
| Return (b : bool)
| Throw (e : error).

(** [crypto.timingSafeEqual(a, b)]: throws when the byte lengths differ
    ("Input buffers must have the same byte length"); otherwise folds the
    XOR of every pair of bytes into one accumulator and tests it once. *)
Fixpoint xor_fold (a b : list Z) (acc : Z) : Z :=
  match a, b with
  | x :: a', y :: b' => xor_fold a' b' (Z.lor acc (Z.lxor x y))
  | _, _ => acc
  end.

Definition timingSafeEqual (a b : list Z) : completion :=
  if Nat.eqb (List.length a) (List.length b)
  then Return (xor_fold a b 0 =? 0)
  else Throw RangeError.

(* ================================================================== *)
(** ** JavaScript string operations used by the routine *)

Module JSString.
Import JSNumber.

(** [s.split(sep)] for a one-character separator; [''.split(',')] is
    [['']]. *)
Fixpoint split (sep : ascii) (s : string) : list string :=
  match s with
  | EmptyString => [EmptyString]
  | String c r =>
      if Ascii.eqb c sep then EmptyString :: split sep r
      else match split sep r with
           | f :: fs => String c f :: fs
           | [] => [String c EmptyString]
           end
  end.

(** [s.startsWith(p)] *)
Definition startsWith (p s : string) : bool := String.prefix p s.

(** [s.slice(n)] for [n >= 0]. *)
Fixpoint slice (n : nat) (s : string) : string :=
  match n, s with
  | O, _ => s
  | S n', String _ r => slice n' r
  | S _, EmptyString => EmptyString
  end.

(** [!s] for [s : string | undefined]: true on [undefined] and on ['']. *)
Definition falsy (s : option string) : bool :=
  match s with
  | None => true
  | Some EmptyString => true
  | Some (String _ _) => false
  end.

(** White space and line terminators stripped by [parseInt], in UTF-8:
    TAB LF VT FF CR SP; U+00A0; U+1680, U+2000..U+200A, U+2028, U+2029,
    U+202F, U+205F, U+3000, U+FEFF. *)
Definition code (c : ascii) : Z := Z.of_N (N_of_ascii c).

Definition ws1 (c : ascii) : bool :=
  let n := code c in ((9 <=? n) && (n <=? 13)) || (n =? 32).

Definition ws2 (c1 c2 : ascii) : bool :=
  (code c1 =? 0xC2) && (code c2 =? 0xA0).

Definition ws3 (c1 c2 c3 : ascii) : bool :=
  let a := code c1 in let b := code c2 in let c := code c3 in
  ((a =? 0xE1) && (b =? 0x9A) && (c =? 0x80))
  || ((a =? 0xE2) && (b =? 0x80)
      && (((0x80 <=? c) && (c <=? 0x8A)) || (c =? 0xA8) || (c =? 0xA9)
          || (c =? 0xAF)))
  || ((a =? 0xE2) && (b =? 0x81) && (c =? 0x9F))
  || ((a =? 0xE3) && (b =? 0x80) && (c =? 0x80))
  || ((a =? 0xEF) && (b =? 0xBB) && (c =? 0xBF)).

Fixpoint trimStart (s : string) : string :=
  match s with
  | EmptyString => s
  | String c1 r1 =>
      if ws1 c1 then trimStart r1 else
      match r1 with
      | EmptyString => s
      | String c2 r2 =>
          if ws2 c1 c2 then trimStart r2 else
          match r2 with
          | EmptyString => s
          | String c3 r3 => if ws3 c1 c2 c3 then trimStart r3 else s
          end
      end
  end.

Definition digit_value (c : ascii) : option Z :=
  let n := code c in
  if (48 <=? n) && (n <=? 57) then Some (n - 48) else None.

(** The value of the longest prefix of decimal digits; [acc] is [None]
    until a digit has been read. *)
Fixpoint parse_digits (s : string) (acc : option Z) : option Z :=
  match s with
  | EmptyString => acc
  | String c r =>
      match digit_value c with
      | Some d =>
          parse_digits r
            (Some (10 * (match acc with Some a => a | None => 0 end) + d))
      | None => acc
      end
  end.

(** [parseInt(s, 10)]: skip leading white space, read an optional sign,
    then the longest run of decimal digits; NaN when that run is empty.
    What follows the digits is ignored.  (Radix 10 strips no [0x]
    prefix; [-0] is rendered as [0], which no later step tells apart.)
    The result is the exact integer the digits denote: the double
    [parseInt] returns when its magnitude is at most 2^53, and what that
    double approximates beyond. *)
Definition parseInt (s : string) : number :=
  let s1 := trimStart s in
  let '(sign, s2) :=
    match s1 with
    | String "-"%char r => (-1, r)
    | String "+"%char r => (1, r)
    | _ => (1, s1)
    end in
  match parse_digits s2 None with
  | None => NaN
  | Some m => Num (sign * m)
  end.

End JSString.

(* ================================================================== *)
(** ** The routine *)

Module Webhook.
Import JSNumber JSString Crypto.

(** src/index.ts, lines 259-283.  [clock] is the value of [Date.now()],
    in milliseconds. *)
Definition verifyWebhookSignature
    (payload signature secret : string)
    (toleranceSeconds : number) (clock : Z) : completion :=
  let parts := split ","%char signature in
  let timestamp := option_map (slice 2) (find (startsWith "t=") parts) in
  let sig := option_map (slice 3) (find (startsWith "v1=") parts) in
  if falsy timestamp || falsy sig then Return false else
  match timestamp, sig with
  | Some timestamp, Some sig =>
      let ts := parseInt timestamp in
      let now := floor_div_1000 clock in
      if gt (abs (sub now ts)) toleranceSeconds then Return false else
      let expected :=
        hmac_sha256_hex secret (timestamp ++ "." ++ payload) in
      timingSafeEqual (bytes_of_string sig) (bytes_of_string expected)
  | _, _ => Return false
  end.

(** The default value of [toleranceSeconds]. *)
Definition default_tolerance : number := Num 300.

End Webhook.

(* ================================================================== *)
(** ** The sending side: how a header is built *)

Module Sender.
Import Crypto.

Definition digit_char (d : Z) : ascii := ascii_of_N (Z.to_N (48 + d)).

Fixpoint digits_of (fuel : nat) (n : Z) (acc : string) : string :=
  match fuel with
  | O => acc
  | S fuel' =>
      let acc' := String (digit_char (n mod 10)) acc in
      if n <? 10 then acc' else digits_of fuel' (n / 10) acc'
  end.

(** The decimal text of an integer, as [String(n)] gives it. *)
Definition decimal (z : Z) : string :=
  let fuel := S (Z.to_nat (Z.log2 (Z.abs z))) in
  if z <? 0 then String "-"%char (digits_of fuel (- z) EmptyString)
  else digits_of fuel z EmptyString.

(** The digest a holder of [secret] attaches to [payload] at time
    text [t]. *)
Definition sign (secret t payload : string) : string :=
  hmac_sha256_hex secret (t ++ "." ++ payload).

(** The header [t=<t>,v1=<digest>]. *)
Definition header (secret t payload : string) : string :=
  "t=" ++ t ++ ",v1=" ++ sign secret t payload.

(** The header with [joined] fields in the order given. *)
Definition join (fields : list string) : string := String.concat "," fields.

End Sender.

(** The scenario of the specification. *)
Module Scenario.
Definition dq : string := String "034"%char EmptyString.
Definition payload : string :=
  "{" ++ dq ++ "event" ++ dq ++ ":" ++ dq ++ "invocation" ++ dq ++ "}".
Definition secret : string := "whsec_test".
End Scenario.

(* ================================================================== *)
(** ** The HTTP client (src/index.ts, lines 69-242) *)

Module Client.
Import JSNumber JSString Sender.

(** A parsed JSON value.  A number is represented by the text [String]
    gives for it; [0] and [-0] both have the text [0], and JSON has no
    NaN.  The properties of an object are kept in insertion order. *)
#[local] Set Warnings "-register-all".
Inductive json : Type :=
| JNull
| JBool (b : bool)
| JNumber (text : string)
| JString (s : string)
| JArray (items : list json)
| JObject (props : list (string * json)).

Inductive exn : Type :=
| Error (message : string)
| TypeError
| SyntaxError
| NetworkError.

(** A settled promise. *)
Inductive outcome (A : Type) : Type :=
| Resolved (a : A)
| Rejected (e : exn).
Arguments Resolved {A} a.
Arguments Rejected {A} e.

(** Truthiness of a value read from a parsed body; [None] is
    [undefined]. *)
Definition truthy (v : option json) : bool :=
  match v with
  | None => false
  | Some JNull => false
  | Some (JBool b) => b
  | Some (JNumber t) => negb (t =? "0")%string
  | Some (JString s) => negb (s =? "")%string
  | Some (JArray _) => true
  | Some (JObject _) => true
  end.

Fixpoint lookup {A : Type} (k : string) (l : list (string * A)) : option A :=
  match l with
  | [] => None
  | (k', v) :: r => if (k' =? k)%string then Some v else lookup k r
  end.

(** [error.error]: a [TypeError] on [null], the property of an object,
    [undefined] on a boolean, number, string or array. *)
Definition error_property (j : json) : exn + option json :=
  match j with
  | JNull => inl TypeError
  | JObject props => inr (lookup "error" props)
  | _ => inr None
  end.

(** [String(v)], as [new Error(v)] applies it to its argument. *)
Fixpoint to_string (j : json) : string :=
  match j with
  | JNull => "null"
  | JBool true => "true"
  | JBool false => "false"
  | JNumber t => t
  | JString s => s
  | JArray items =>
      (fix join_items (l : list json) : string :=
         match l with
         | [] => ""
         | x :: r =>
             let e := match x with JNull => "" | _ => to_string x end in
             match r with
             | [] => e
             | _ :: _ => (e ++ "," ++ join_items r)%string
             end
         end) items
  | JObject _ => "[object Object]"
  end.

(** [String(n)] for the numbers of the embedding (an integer below
    10^21 in magnitude is written in plain decimal). *)
Definition String_number (n : number) : string :=
  match n with
  | NaN => "NaN"
  | NegInf => "-Infinity"
  | PosInf => "Infinity"
  | Num z => decimal z
  end.

(** Truthiness of an optional number and of an optional string. *)
Definition truthy_number (n : option number) : bool :=
  match n with
  | Some (Num z) => negb (z =? 0)
  | Some PosInf | Some NegInf => true
  | Some NaN | None => false
  end.

(** Setting a key of an ordered key-value list: the first entry of the
    key takes the value and later ones are dropped, a new key is
    appended.  This is [URLSearchParams.set], and assignment to a
    property of an object. *)
Fixpoint drop_key (k : string) (l : list (string * string)) : list (string * string) :=
  match l with
  | [] => []
  | (k', v') :: r =>
      if (k' =? k)%string then drop_key k r else (k', v') :: drop_key k r
  end.

Fixpoint set_entry (k v : string) (l : list (string * string)) : list (string * string) :=
  match l with
  | [] => [(k, v)]
  | (k', v') :: r =>
      if (k' =? k)%string then (k, v) :: drop_key k r
      else (k', v') :: set_entry k v r
  end.

(** [{...a, ...b}] *)
Definition spread (a b : list (string * string)) : list (string * string) :=
  fold_left (fun acc kv => set_entry (fst kv) (snd kv) acc) b a.

(** The application/x-www-form-urlencoded serializer behind
    [`${params}`]: a space becomes [+], ASCII letters and digits and
    [*-._] stay, every other byte becomes [%XX] in uppercase.  The
    conversion to a scalar-value string that [URLSearchParams.set]
    applies first changes unpaired surrogates only, which the strings
    of the embedding do not have. *)
Definition form_safe (c : ascii) : bool :=
  let n := code c in
  ((48 <=? n) && (n <=? 57)) || ((65 <=? n) && (n <=? 90))
  || ((97 <=? n) && (n <=? 122))
  || (n =? 42) || (n =? 45) || (n =? 46) || (n =? 95).

Definition HEX (n : Z) : ascii :=
  match String.get (Z.to_nat (n mod 16)) "0123456789ABCDEF" with
  | Some c => c
  | None => "0"%char
  end.

Fixpoint urlencode (s : string) : string :=
  match s with
  | EmptyString => EmptyString
  | String c r =>
      if code c =? 32 then String "+"%char (urlencode r)
      else if form_safe c then String c (urlencode r)
      else String "%"%char
             (String (HEX (code c / 16)) (String (HEX (code c)) (urlencode r)))
  end.

Definition pair_text (kv : string * string) : string :=
  urlencode (fst kv) ++ "=" ++ urlencode (snd kv).

Definition serialize (params : list (string * string)) : string :=
  String.concat "&" (map pair_text params).

(** Configuration, client, request and response. *)
Record ClawdNetConfig : Type := mkConfig {
  config_apiKey : option string;
  config_baseUrl : option string
}.

Record ClawdNet : Type := mkClient {
  apiKey : option string;
  baseUrl : string
}.

Record RequestInit : Type := mkInit {
  init_method : option string;
  init_body : option string;
  init_headers : option (list (string * string))
}.

Record request : Type := mkRequest {
  url : string;
  method : option string;
  body : option string;
  headers : list (string * string)
}.

(** A response: its status and what [response.json()] gives, [None]
    when the body is not JSON. *)
Record response : Type := mkResponse {
  status : Z;
  parsed : option json
}.

(** [response.ok] *)
Definition ok (r : response) : bool :=
  (200 <=? status r) && (status r <=? 299).

Definition DEFAULT_BASE_URL : string := "https://clawdnet.xyz".

(** lines 75-78 *)
Definition constructor (config : ClawdNetConfig) : ClawdNet :=
  mkClient (config_apiKey config)
    (if falsy (config_baseUrl config) then DEFAULT_BASE_URL
     else match config_baseUrl config with
          | Some u => u
          | None => DEFAULT_BASE_URL
          end).

(** lines 240-242; [None] is a call without argument. *)
Definition createClient (config : option ClawdNetConfig) : ClawdNet :=
  constructor (match config with
               | Some c => c
               | None => mkConfig None None
               end).

(** lines 84-96: the request the private [fetch] sends. *)
Definition build_request (c : ClawdNet) (path : string)
    (options : RequestInit) : request :=
  let headers :=
    spread [("Content-Type", "application/json")]
      (match init_headers options with Some h => h | None => [] end) in
  let headers :=
    if falsy (apiKey c) then headers
    else match apiKey c with
         | Some key => set_entry "Authorization" ("Bearer " ++ key) headers
         | None => headers
         end in
  mkRequest (baseUrl c ++ path) (init_method options) (init_body options)
    headers.

(** lines 98-103: what the private [fetch] makes of the settled
    request. *)
Definition handle_response (r : outcome response) : outcome json :=
  match r with
  | Rejected e => Rejected e
  | Resolved resp =>
      if negb (ok resp) then
        let error :=
          match parsed resp with Some j => j | None => JObject [] end in
        match error_property error with
        | inl e => Rejected e
        | inr v =>
            Rejected
              (Error (if truthy v
                      then match v with
                           | Some j => to_string j
                           | None => ""
                           end
                      else "Request failed: " ++ decimal (status resp)))
        end
      else match parsed resp with
           | Some j => Resolved j
           | None => Rejected SyntaxError
           end
  end.

(** A call gives the requests it has sent and the way its promise
    settles; [net] is the global [fetch]. *)
Definition call : Type := list request * outcome json.

Definition transport : Type := request -> outcome response.

(** lines 80-104 *)
Definition fetch_ (c : ClawdNet) (path : string) (options : RequestInit)
    (net : transport) : call :=
  let req := build_request c path options in
  ([req], handle_response (net req)).

Definition plain : RequestInit := mkInit None None None.
Definition post (body : string) : RequestInit :=
  mkInit (Some "POST") (Some body) None.

Record ListOptions : Type := mkListOptions {
  limit : option number;
  offset : option number;
  search : option string;
  skill : option string;
  status_filter : option string
}.

Record PageOptions : Type := mkPageOptions {
  page_limit : option number;
  page_offset : option number
}.

(** [if (v) params.set(k, String(v))] and [if (v) params.set(k, v)] *)
Definition set_number (k : string) (v : option number)
    (params : list (string * string)) : list (string * string) :=
  if truthy_number v
  then match v with
       | Some n => set_entry k (String_number n) params
       | None => params
       end
  else params.

Definition set_text (k : string) (v : option string)
    (params : list (string * string)) : list (string * string) :=
  if falsy v then params
  else match v with
       | Some s => set_entry k s params
       | None => params
       end.

(** lines 156-161; [None] is [options] left out. *)
Definition list_params (options : option ListOptions) : list (string * string) :=
  match options with
  | None => []
  | Some o =>
      set_text "status" (status_filter o)
        (set_text "skill" (skill o)
           (set_text "search" (search o)
              (set_number "offset" (offset o)
                 (set_number "limit" (limit o) []))))
  end.

(** lines 190-192 *)
Definition page_params (options : option PageOptions) : list (string * string) :=
  match options with
  | None => []
  | Some o =>
      set_number "offset" (page_offset o)
        (set_number "limit" (page_limit o) [])
  end.

Section Methods.

(** The options object of a call is a JavaScript value.
    [JSON.stringify] gives its text, or throws: a [TypeError] on a BigInt
    or on a cyclic value, which [input?: any] and
    [metadata?: Record<string, any>] admit.  A method is [async], so the
    exception rejects its promise, before any request is sent. *)
Variable value : Type.
Variable JSON_stringify : value -> exn + string.

(** The object [{}], the default of [heartbeat]. *)
Variable empty_object : value.

Definition register (c : ClawdNet) (options : value) (net : transport) : call :=
  match JSON_stringify options with
  | inl e => ([], Rejected e)
  | inr text => fetch_ c "/api/v1/agents/register" (post text) net
  end.

Definition heartbeat (c : ClawdNet) (options : option value)
    (net : transport) : call :=
  let options := match options with Some o => o | None => empty_object end in
  if falsy (apiKey c)
  then ([], Rejected (Error "API key required for heartbeat"))
  else match JSON_stringify options with
       | inl e => ([], Rejected e)
       | inr text => fetch_ c "/api/v1/agents/heartbeat" (post text) net
       end.

Definition me (c : ClawdNet) (net : transport) : call :=
  if falsy (apiKey c) then ([], Rejected (Error "API key required"))
  else fetch_ c "/api/v1/agents/me" plain net.

Definition listAgents (c : ClawdNet) (options : option ListOptions)
    (net : transport) : call :=
  fetch_ c ("/api/agents?" ++ serialize (list_params options)) plain net.

Definition getAgent (c : ClawdNet) (handle : string) (net : transport) : call :=
  fetch_ c ("/api/agents/" ++ handle) plain net.

Definition invoke (c : ClawdNet) (handle : string) (options : value)
    (net : transport) : call :=
  match JSON_stringify options with
  | inl e => ([], Rejected e)
  | inr text => fetch_ c ("/api/agents/" ++ handle ++ "/invoke") (post text) net
  end.

Definition getTransactions (c : ClawdNet) (handle : string)
    (options : option PageOptions) (net : transport) : call :=
  fetch_ c ("/api/agents/" ++ handle ++ "/transactions?"
            ++ serialize (page_params options)) plain net.

Definition getCapabilities (c : ClawdNet) (net : transport) : call :=
  fetch_ c "/api/capabilities" plain net.

Definition listWebhooks (c : ClawdNet) (net : transport) : call :=
  if falsy (apiKey c) then ([], Rejected (Error "API key required"))
  else fetch_ c "/api/v1/webhooks" plain net.

Definition createWebhook (c : ClawdNet) (options : value)
    (net : transport) : call :=
  if falsy (apiKey c) then ([], Rejected (Error "API key required"))
  else match JSON_stringify options with
       | inl e => ([], Rejected e)
       | inr text => fetch_ c "/api/v1/webhooks" (post text) net
       end.

Definition deleteWebhook (c : ClawdNet) (id : string) (net : transport) : call :=
  if falsy (apiKey c) then ([], Rejected (Error "API key required"))
  else fetch_ c ("/api/v1/webhooks?id=" ++ id)
         (mkInit (Some "DELETE") None None) net.

(** One call of a public method. *)
Inductive invocation : Type :=
| Register (options : value)
| Heartbeat (options : option value)
| Me
| ListAgents (options : option ListOptions)
| GetAgent (handle : string)
| Invoke (handle : string) (options : value)
| GetTransactions (handle : string) (options : option PageOptions)
| GetCapabilities
| ListWebhooks
| CreateWebhook (options : value)
| DeleteWebhook (id : string).

Definition perform (c : ClawdNet) (i : invocation) (net : transport) : call :=
  match i with
  | Register o => register c o net
  | Heartbeat o => heartbeat c o net
  | Me => me c net
  | ListAgents o => listAgents c o net
  | GetAgent h => getAgent c h net
  | Invoke h o => invoke c h o net
  | GetTransactions h o => getTransactions c h o net
  | GetCapabilities => getCapabilities c net
  | ListWebhooks => listWebhooks c net
  | CreateWebhook o => createWebhook c o net
  | DeleteWebhook id => deleteWebhook c id net
  end.

End Methods.

Arguments register {value} JSON_stringify c options net.
Arguments heartbeat {value} JSON_stringify empty_object c options net.
Arguments invoke {value} JSON_stringify c handle options net.
Arguments createWebhook {value} JSON_stringify c options net.
Arguments perform {value} JSON_stringify empty_object c i net.
Arguments Register {value} options.
Arguments Heartbeat {value} options.
Arguments Me {value}.
Arguments ListAgents {value} options.
Arguments GetAgent {value} handle.
Arguments Invoke {value} handle options.
Arguments GetTransactions {value} handle options.
Arguments GetCapabilities {value}.
Arguments ListWebhooks {value}.
Arguments CreateWebhook {value} options.
Arguments DeleteWebhook {value} id.

(** The methods that check for an API key before anything else. *)
Definition requires_key {value : Type} (i : invocation value) : bool :=
  match i with
  | Heartbeat _ | Me | ListWebhooks | CreateWebhook _ | DeleteWebhook _ => true
  | _ => false
  end.

End Client.

(* ================================================================== *)
(** ** Vocabulary of the statements *)

Import JSNumber JSString Crypto Webhook Sender.

(** The two values the routine extracts from the header (lines 267-269). *)
Definition timestamp_of (signature : string) : option string :=
  option_map (slice 2) (find (startsWith "t=") (split ","%char signature)).

Definition sig_of (signature : string) : option string :=
  option_map (slice 3) (find (startsWith "v1=") (split ","%char signature)).

(** The replay-window test of line 275 lets the call proceed. *)
Definition in_window (timestamp : string) (tol : number) (clock : Z) : bool :=
  negb (gt (abs (sub (floor_div_1000 clock) (parseInt timestamp))) tol).

Fixpoint all_chars (p : ascii -> bool) (s : string) : bool :=
  match s with
  | EmptyString => true
  | String c r => p c && all_chars p r
  end.

Definition not_comma (c : ascii) : bool := negb (Ascii.eqb c ","%char).
Definition comma_free (s : string) : bool := all_chars not_comma s.

Definition lower_hex (c : ascii) : bool :=
  let n := code c in
  ((48 <=? n) && (n <=? 57)) || ((97 <=? n) && (n <=? 102)).

Definition is_digit (c : ascii) : bool :=
  let n := code c in (48 <=? n) && (n <=? 57).

(** A tolerance that is not negative. *)
Definition nonneg (tol : number) : Prop :=
  match tol with
  | Num z => 0 <= z
  | PosInf => True
  | NaN | NegInf => False
  end.

(** [f] is the leftmost of [fields] that begins with [key]. *)
Definition first_field (key : string) (fields : list string) (f : string) : Prop :=
  exists pre post,
    fields = pre ++ f :: post
    /\ startsWith key f = true
    /\ Forall (fun x => startsWith key x = false) pre.

(** Number of fields that begin with [key]. *)
Definition occurrences (key : string) (fields : list string) : nat :=
  List.length (filter (startsWith key) fields).

(** An integer of magnitude at most 2^53: every such integer is a
    double, and [parseInt], [-] and [Math.abs] are exact as long as their
    arguments and results stay in this range. *)
Definition exact_double (z : Z) : Prop := Z.abs z <= 2 ^ 53.

(** A time value, what [Date.now()] can return: at most 8.64e15
    milliseconds from the epoch.  On a time value
    [Math.floor(Date.now() / 1000)] is the exact quotient. *)
Definition time_value (clock : Z) : Prop := Z.abs clock <= 8640000000000000.

(** Well-formed UTF-8: the representation of a JavaScript string that
    has no unpaired surrogate.  The conversion to a scalar-value string
    that [URLSearchParams] applies to names and values leaves such a
    string as it is. *)
Definition between (lo hi : Z) (c : ascii) : bool :=
  (lo <=? code c) && (code c <=? hi).

Fixpoint well_formed (s : string) : bool :=
  match s with
  | EmptyString => true
  | String c1 r1 =>
      if between 0x00 0x7F c1 then well_formed r1 else
      match r1 with
      | EmptyString => false
      | String c2 r2 =>
          if between 0xC2 0xDF c1 && between 0x80 0xBF c2
          then well_formed r2 else
          match r2 with
          | EmptyString => false
          | String c3 r3 =>
              if ((between 0xE0 0xE0 c1 && between 0xA0 0xBF c2)
                  || (between 0xE1 0xEC c1 && between 0x80 0xBF c2)
                  || (between 0xED 0xED c1 && between 0x80 0x9F c2)
                  || (between 0xEE 0xEF c1 && between 0x80 0xBF c2))
                 && between 0x80 0xBF c3
              then well_formed r3 else
              match r3 with
              | EmptyString => false
              | String c4 r4 =>
                  if ((between 0xF0 0xF0 c1 && between 0x90 0xBF c2)
                      || (between 0xF1 0xF3 c1 && between 0x80 0xBF c2)
                      || (between 0xF4 0xF4 c1 && between 0x80 0x8F c2))
                     && between 0x80 0xBF c3 && between 0x80 0xBF c4
                  then well_formed r4 else false
              end
          end
      end
  end.

(** [s] is empty or begins with a character that is not a decimal
    digit. *)
Definition no_leading_digit (s : string) : bool :=
  match s with
  | EmptyString => true
  | String c _ => negb (is_digit c)
  end.

(** Characters of an encoded name or value, of an encoded field
    [name=value], and of a serialized query. *)
Definition enc_char (c : ascii) : bool :=
  Client.form_safe c || (code c =? 43) || (code c =? 37).
Definition field_char (c : ascii) : bool := enc_char c || (code c =? 61).
Definition query_char (c : ascii) : bool := field_char c || (code c =? 38).

(** [s] does not contain the character [sep]. *)
Definition free_of (sep : ascii) (s : string) : bool :=
  all_chars (fun c => negb (Ascii.eqb c sep)) s.

(** The value of a hexadecimal digit in uppercase. *)
Definition unhex (c : ascii) : Z :=
  if code c <=? 57 then code c - 48 else code c - 55.

(** Every option of [listAgents] is absent or falsy. *)
Definition all_falsy (o : Client.ListOptions) : bool :=
  negb (Client.truthy_number (Client.limit o))
  && negb (Client.truthy_number (Client.offset o))
  && falsy (Client.search o) && falsy (Client.skill o)
  && falsy (Client.status_filter o).

(** The parameters [listAgents] is meant to send: one per truthy
    option, in the order of the source. *)
Definition number_param (k : string) (v : option number) : list (string * string) :=
  match v with
  | Some n => if Client.truthy_number v then [(k, Client.String_number n)] else []
  | None => []
  end.

Definition text_param (k : string) (v : option string) : list (string * string) :=
  match v with
  | Some (String c r) => [(k, String c r)]
  | _ => []
  end.

Definition chosen (o : Client.ListOptions) : list (string * string) :=
  number_param "limit" (Client.limit o)
  ++ number_param "offset" (Client.offset o)
  ++ text_param "search" (Client.search o)
  ++ text_param "skill" (Client.skill o)
  ++ text_param "status" (Client.status_filter o).

(* ================================================================== *)
(** ** Splitting and joining *)

Lemma split_comma_free (s : string) :
  comma_free s = true -> split ","%char s = [s].
Proof.
  induction s as [|c r IH]; intros H; [reflexivity|].
  cbn [comma_free all_chars] in H.
  apply andb_true_iff in H as [Hc Hr].
  cbn [split]. unfold not_comma in Hc.
  apply negb_true_iff in Hc. rewrite Hc.
  rewrite (IH Hr). reflexivity.
Qed.

Lemma split_app (a b : string) :
  comma_free a = true ->
  split ","%char (a ++ String ","%char b) = a :: split ","%char b.
Proof.
  induction a as [|c r IH]; intros H.
  - reflexivity.
  - cbn [comma_free all_chars] in H.
    apply andb_true_iff in H as [Hc Hr].
    unfold not_comma in Hc. apply negb_true_iff in Hc.
    cbn [append split]. rewrite Hc, (IH Hr). reflexivity.
Qed.

Lemma join_cons (x y : string) (l : list string) :
  join (x :: y :: l) = (x ++ String ","%char (join (y :: l)))%string.
Proof. reflexivity. Qed.

Lemma split_join (fields : list string) :
  fields <> [] ->
  Forall (fun f => comma_free f = true) fields ->
  split ","%char (join fields) = fields.
Proof.
  induction fields as [|x l IH]; intros Hne Hall; [congruence|].
  inversion Hall as [|? ? Hx Hl]; subst.
  destruct l as [|y l'].
  - apply split_comma_free; assumption.
  - rewrite join_cons, split_app by assumption.
    f_equal. apply IH; [discriminate | assumption].
Qed.

(* ================================================================== *)
(** ** The comparison primitive *)

Lemma xor_fold_zero (a : list Z) :
  forall b acc, List.length a = List.length b ->
    (xor_fold a b acc = 0 <-> acc = 0 /\ a = b).
Proof.
  induction a as [|x a IH]; intros [|y b] acc Hlen; try discriminate.
  - cbn. tauto.
  - cbn [xor_fold]. injection Hlen as Hlen.
    rewrite (IH b _ Hlen), Z.lor_eq_0_iff, Z.lxor_eq_0_iff.
    split.
    + intros [[-> ->] ->]. auto.
    + intros [-> E]. injection E as -> ->. auto.
Qed.

Lemma timingSafeEqual_true_iff (a b : list Z) :
  timingSafeEqual a b = Return true <-> a = b.
Proof.
  unfold timingSafeEqual.
  destruct (Nat.eqb (List.length a) (List.length b)) eqn:E.
  - apply Nat.eqb_eq in E. split.
    + intros H. injection H as H. apply Z.eqb_eq in H.
      apply (xor_fold_zero a b 0 E) in H. tauto.
    + intros ->. f_equal. apply Z.eqb_eq.
      apply (xor_fold_zero b b 0 eq_refl). auto.
  - split; [discriminate|].
    intros ->. rewrite Nat.eqb_refl in E. discriminate.
Qed.

Lemma timingSafeEqual_length (a b : list Z) :
  List.length a <> List.length b -> timingSafeEqual a b = Throw RangeError.
Proof.
  intros H. unfold timingSafeEqual.
  apply Nat.eqb_neq in H. rewrite H. reflexivity.
Qed.

Lemma bytes_of_string_inj (s t : string) :
  bytes_of_string s = bytes_of_string t -> s = t.
Proof.
  revert t. induction s as [|c r IH]; intros [|d u] H; try discriminate.
  - reflexivity.
  - unfold bytes_of_string in H. cbn [list_ascii_of_string map] in H.
    injection H as Hc Hr. apply N2Z.inj in Hc.
    f_equal.
    + rewrite <- (ascii_N_embedding c), <- (ascii_N_embedding d), Hc.
      reflexivity.
    + apply IH. exact Hr.
Qed.

Lemma bytes_of_string_length (s : string) :
  List.length (bytes_of_string s) = String.length s.
Proof.
  induction s as [|c r IH]; [reflexivity|].
  unfold bytes_of_string in *. cbn [list_ascii_of_string map List.length String.length].
  rewrite IH. reflexivity.
Qed.

Lemma compare_strings (s t : string) :
  timingSafeEqual (bytes_of_string s) (bytes_of_string t) = Return true
  <-> s = t.
Proof.
  rewrite timingSafeEqual_true_iff. split.
  - apply bytes_of_string_inj.
  - intros ->. reflexivity.
Qed.

(* ================================================================== *)
(** ** Test vectors of the primitives *)

Example round_constants :
  nth 0 K 0 = 0x428a2f98 /\ nth 63 K 0 = 0xc67178f2
  /\ List.length K = 64%nat
  /\ ha H0 = frac_root 2 2 /\ hh H0 = frac_root 2 19.
Proof. repeat split. Qed.

Example sha256_abc :
  hex (sha256 (bytes_of_string "abc"))
  = "ba7816bf8f01cfea414140de5dae2223b00361a396177a9cb410ff61f20015ad".
Proof. vm_compute. reflexivity. Qed.

Example hmac_rfc4231_case2 :
  hmac_sha256_hex "Jefe" "what do ya want for nothing?"
  = "5bdcc146bf60754e6a042426089575c75a003f089d2739839dec58b964ec3843".
Proof. vm_compute. reflexivity. Qed.

(* ================================================================== *)
(** ** Shape of a digest *)

Lemma all_chars_impl (p q : ascii -> bool) (s : string) :
  (forall c, p c = true -> q c = true) ->
  all_chars p s = true -> all_chars q s = true.
Proof.
  intros Hpq. induction s as [|c r IH]; [reflexivity|].
  cbn [all_chars]. rewrite !andb_true_iff. intros [Hc Hr]. auto.
Qed.

Lemma small_cases (k : Z) (P : Z -> Prop) :
  0 <= k < 16 ->
  P 0 -> P 1 -> P 2 -> P 3 -> P 4 -> P 5 -> P 6 -> P 7 ->
  P 8 -> P 9 -> P 10 -> P 11 -> P 12 -> P 13 -> P 14 -> P 15 -> P k.
Proof.
  intros Hk. intros.
  assert (E : k = 0 \/ k = 1 \/ k = 2 \/ k = 3 \/ k = 4 \/ k = 5 \/ k = 6
              \/ k = 7 \/ k = 8 \/ k = 9 \/ k = 10 \/ k = 11 \/ k = 12
              \/ k = 13 \/ k = 14 \/ k = 15) by lia.
  repeat (destruct E as [-> | E]; [assumption|]). subst. assumption.
Qed.

Lemma hex_digit_lower (n : Z) : lower_hex (hex_digit n) = true.
Proof.
  unfold hex_digit.
  apply (small_cases (n mod 16)
           (fun k => lower_hex
                       match get (Z.to_nat k) "0123456789abcdef" with
                       | Some c => c
                       | None => "0"%char
                       end = true));
    [apply Z.mod_pos_bound; lia | reflexivity ..].
Qed.

Lemma hex_lower (bs : list Z) : all_chars lower_hex (hex bs) = true.
Proof.
  induction bs as [|b r IH]; [reflexivity|].
  cbn [hex all_chars]. rewrite !hex_digit_lower, IH. reflexivity.
Qed.

Lemma hex_length (bs : list Z) :
  String.length (hex bs) = (2 * List.length bs)%nat.
Proof.
  induction bs as [|b r IH]; [reflexivity|].
  cbn [hex String.length List.length]. rewrite IH. lia.
Qed.

Lemma lower_hex_not_comma (c : ascii) :
  lower_hex c = true -> not_comma c = true.
Proof.
  intros H. unfold not_comma.
  destruct (Ascii.eqb c ","%char) eqn:E; [|reflexivity].
  apply Ascii.eqb_eq in E. subst c. discriminate H.
Qed.

Lemma sha256_length (msg : list Z) : List.length (sha256 msg) = 32%nat.
Proof.
  unfold sha256, hash_bytes. rewrite !length_app. reflexivity.
Qed.

Lemma hmac_sha256_length (key msg : list Z) :
  List.length (hmac_sha256 key msg) = 32%nat.
Proof. unfold hmac_sha256. apply sha256_length. Qed.

Lemma digest_length (key msg : string) :
  String.length (hmac_sha256_hex key msg) = 64%nat.
Proof.
  unfold hmac_sha256_hex. rewrite hex_length, hmac_sha256_length.
  reflexivity.
Qed.

Lemma digest_lower_hex (key msg : string) :
  all_chars lower_hex (hmac_sha256_hex key msg) = true.
Proof. apply hex_lower. Qed.

Lemma digest_comma_free (key msg : string) :
  comma_free (hmac_sha256_hex key msg) = true.
Proof.
  apply (all_chars_impl lower_hex); [apply lower_hex_not_comma|].
  apply digest_lower_hex.
Qed.

Lemma digest_not_empty (key msg : string) :
  falsy (Some (hmac_sha256_hex key msg)) = false.
Proof.
  pose proof (digest_length key msg) as H.
  destruct (hmac_sha256_hex key msg); [discriminate H | reflexivity].
Qed.

(* ================================================================== *)
(** ** Decimal text and [parseInt] *)

Ltac digit_cases d H :=
  let E := fresh "E" in
  assert (E : d = 0 \/ d = 1 \/ d = 2 \/ d = 3 \/ d = 4 \/ d = 5 \/ d = 6
              \/ d = 7 \/ d = 8 \/ d = 9) by lia;
  clear H;
  repeat (destruct E as [-> | E]); [.. | subst d].

Lemma digit_value_char (d : Z) :
  0 <= d < 10 -> digit_value (digit_char d) = Some d.
Proof. intros H. digit_cases d H; reflexivity. Qed.

Lemma digit_char_not_comma (d : Z) :
  0 <= d < 10 -> not_comma (digit_char d) = true.
Proof. intros H. digit_cases d H; reflexivity. Qed.

Lemma digits_of_parse (f : nat) :
  forall n tail,
    0 <= n < 2 ^ Z.of_nat (S f) ->
    exists k, 0 <= k /\
      forall acc,
        parse_digits (digits_of (S f) n tail) acc
        = parse_digits tail
            (Some ((match acc with Some a => a | None => 0 end) * 10 ^ k + n)).
Proof.
  induction f as [|f IH]; intros n tail Hn.
  - exists 1. split; [lia|]. intros acc.
    assert (Hm : n mod 10 = n) by (apply Z.mod_small; cbn in Hn; lia).
    cbn [digits_of]. rewrite Hm.
    assert (Hd : digit_value (digit_char n) = Some n)
      by (apply digit_value_char; cbn in Hn; lia).
    destruct (n <? 10); cbn [parse_digits]; rewrite Hd; f_equal; f_equal; lia.
  - cbn [digits_of].
    assert (Hd : digit_value (digit_char (n mod 10)) = Some (n mod 10))
      by (apply digit_value_char; apply Z.mod_pos_bound; lia).
    destruct (n <? 10) eqn:E.
    + apply Z.ltb_lt in E. exists 1. split; [lia|]. intros acc.
      cbn [parse_digits]. rewrite Hd, Z.mod_small by lia.
      f_equal; f_equal; lia.
    + apply Z.ltb_ge in E.
      assert (Hq : 0 <= n / 10 < 2 ^ Z.of_nat (S f)).
      { split; [apply Z.div_pos; lia|].
        apply Z.div_lt_upper_bound; [lia|].
        replace (Z.of_nat (S (S f))) with (Z.succ (Z.of_nat (S f))) in Hn
          by lia.
        rewrite Z.pow_succ_r in Hn by lia. lia. }
      destruct (IH (n / 10) (String (digit_char (n mod 10)) tail) Hq)
        as (k & Hk & Hp).
      exists (Z.succ k). split; [lia|]. intros acc.
      rewrite Hp. cbn [parse_digits]. rewrite Hd.
      f_equal. f_equal. rewrite Z.pow_succ_r by lia.
      pose proof (Z.div_mod n 10) as Hdm. lia.
Qed.

Lemma digits_of_head (f : nat) :
  forall n tail,
    exists d r, 0 <= d < 10 /\ digits_of (S f) n tail = String (digit_char d) r.
Proof.
  induction f as [|f IH]; intros n tail.
  - exists (n mod 10), tail. split; [apply Z.mod_pos_bound; lia|].
    cbn [digits_of]. destruct (n <? 10); reflexivity.
  - cbn [digits_of]. destruct (n <? 10).
    + exists (n mod 10), tail. split; [apply Z.mod_pos_bound; lia|].
      reflexivity.
    + apply IH.
Qed.

Lemma digits_of_comma_free (f : nat) :
  forall n tail,
    comma_free tail = true -> comma_free (digits_of f n tail) = true.
Proof.
  induction f as [|f IH]; intros n tail Ht; [exact Ht|].
  assert (Hc : comma_free (String (digit_char (n mod 10)) tail) = true).
  { cbn [comma_free all_chars].
    rewrite digit_char_not_comma by (apply Z.mod_pos_bound; lia).
    exact Ht. }
  cbn [digits_of]. destruct (n <? 10); [exact Hc | apply IH, Hc].
Qed.

Lemma decimal_comma_free (z : Z) : comma_free (decimal z) = true.
Proof.
  unfold decimal. destruct (z <? 0).
  - cbn [comma_free all_chars]. apply andb_true_iff. split; [reflexivity|].
    apply digits_of_comma_free. reflexivity.
  - apply digits_of_comma_free. reflexivity.
Qed.

Lemma decimal_not_empty (z : Z) : falsy (Some (decimal z)) = false.
Proof.
  unfold decimal. destruct (z <? 0); [reflexivity|].
  destruct (digits_of_head (Z.to_nat (Z.log2 (Z.abs z))) z EmptyString)
    as (d & r & _ & ->).
  reflexivity.
Qed.

Lemma fuel_enough (n : Z) :
  0 <= n -> 0 <= n < 2 ^ Z.of_nat (S (Z.to_nat (Z.log2 n))).
Proof.
  intros Hn. split; [exact Hn|].
  rewrite Nat2Z.inj_succ, Z2Nat.id by apply Z.log2_nonneg.
  destruct (Z.eq_dec n 0) as [-> | Hz]; [reflexivity|].
  apply Z.log2_spec. lia.
Qed.

Lemma trimStart_digit (d : Z) (r : string) :
  0 <= d < 10 ->
  trimStart (String (digit_char d) r) = String (digit_char d) r.
Proof.
  intros H. digit_cases d H; destruct r as [|c2 [|c3 r3]]; reflexivity.
Qed.

Lemma trimStart_minus (r : string) :
  trimStart (String "-"%char r) = String "-"%char r.
Proof. destruct r as [|c2 [|c3 r3]]; reflexivity. Qed.

Lemma parseInt_digits (f : nat) (n : Z) :
  0 <= n < 2 ^ Z.of_nat (S f) ->
  parseInt (digits_of (S f) n EmptyString) = Num n.
Proof.
  intros Hn.
  destruct (digits_of_parse f n EmptyString Hn) as (k & _ & Hp).
  specialize (Hp None). cbn [parse_digits] in Hp.
  replace (0 * 10 ^ k + n) with n in Hp by lia.
  destruct (digits_of_head f n EmptyString) as (d & r & Hd & E).
  rewrite E in *. unfold parseInt. rewrite trimStart_digit by exact Hd.
  digit_cases d Hd;
    match goal with
    | |- context [String ?c r] =>
        let c' := eval vm_compute in c in change c with c' in *
    end;
    cbv zeta iota beta; rewrite Hp; f_equal; lia.
Qed.

(** Round trip: [parseInt] reads back the decimal text of any integer. *)
Lemma parseInt_decimal (z : Z) : parseInt (decimal z) = Num z.
Proof.
  unfold decimal. destruct (z <? 0) eqn:E.
  - apply Z.ltb_lt in E.
    replace (Z.abs z) with (- z) by lia.
    unfold parseInt. rewrite trimStart_minus. cbv zeta iota beta.
    destruct (digits_of_parse (Z.to_nat (Z.log2 (- z))) (- z) EmptyString)
      as (k & _ & Hp); [apply fuel_enough; lia|].
    rewrite (Hp None). cbn [parse_digits]. f_equal. lia.
  - apply Z.ltb_ge in E.
    replace (Z.abs z) with z by lia.
    apply parseInt_digits, fuel_enough, E.
Qed.
(* ================================================================== *)
(** ** Looking fields up by key *)

Lemma find_first {A} (f : A -> bool) (pre post : list A) (x : A) :
  Forall (fun y => f y = false) pre -> f x = true ->
  find f (pre ++ x :: post) = Some x.
Proof.
  intros Hpre Hx. induction Hpre as [|y pre Hy _ IH].
  - cbn [app find]. rewrite Hx. reflexivity.
  - cbn [app find]. rewrite Hy. exact IH.
Qed.

Lemma find_absent {A} (f : A -> bool) (l : list A) :
  (forall x, In x l -> f x = false) -> find f l = None.
Proof.
  induction l as [|y l IH]; intros H; [reflexivity|].
  cbn [find]. rewrite (H y (or_introl eq_refl)).
  apply IH. intros x Hx. apply H. right. exact Hx.
Qed.

Lemma find_head_filter {A} (f : A -> bool) (l : list A) :
  find f l = hd_error (filter f l).
Proof.
  induction l as [|y l IH]; [reflexivity|].
  cbn [find filter]. destruct (f y); [reflexivity | exact IH].
Qed.

Lemma filter_permutation {A} (f : A -> bool) (l l' : list A) :
  Permutation l l' -> Permutation (filter f l) (filter f l').
Proof.
  induction 1 as [| x l l' _ IH | x y l | l l' l'' _ IH1 _ IH2].
  - constructor.
  - cbn [filter]. destruct (f x); [constructor|]; exact IH.
  - cbn [filter]. destruct (f x), (f y);
      try apply Permutation_refl. apply perm_swap.
  - exact (perm_trans IH1 IH2).
Qed.

Lemma find_permutation {A} (f : A -> bool) (l l' : list A) :
  Permutation l l' ->
  (List.length (filter f l) <= 1)%nat ->
  find f l = find f l'.
Proof.
  intros Hp Hlen. rewrite !find_head_filter.
  apply (filter_permutation f) in Hp.
  destruct (filter f l) as [|a [|b r]].
  - apply Permutation_nil in Hp. rewrite Hp. reflexivity.
  - apply Permutation_length_1_inv in Hp. rewrite Hp. reflexivity.
  - cbn in Hlen. lia.
Qed.

Lemma startsWith_app (p t : string) : startsWith p (p ++ t) = true.
Proof.
  unfold startsWith. induction p as [|c p IH].
  - destruct t; reflexivity.
  - cbn [append prefix]. destruct (ascii_dec c c); [exact IH | congruence].
Qed.

Lemma t_field_not_v1 (f : string) :
  startsWith "t=" f = true -> startsWith "v1=" f = false.
Proof.
  destruct f as [|c r]; [discriminate|].
  unfold startsWith. cbn [prefix].
  destruct (ascii_dec "t" c) as [<- | _]; [|discriminate].
  intros _. reflexivity.
Qed.

(* ================================================================== *)
(** ** The routine in terms of the two extracted values *)

Lemma verify_unfold (payload signature secret : string)
    (tol : number) (clock : Z) :
  verifyWebhookSignature payload signature secret tol clock =
  match timestamp_of signature, sig_of signature with
  | Some t, Some s =>
      if falsy (Some t) || falsy (Some s) then Return false
      else if in_window t tol clock
           then timingSafeEqual (bytes_of_string s)
                  (bytes_of_string (sign secret t payload))
           else Return false
  | _, _ => Return false
  end.
Proof.
  unfold verifyWebhookSignature, timestamp_of, sig_of, in_window, sign.
  destruct (option_map (slice 2) _) as [t|];
    destruct (option_map (slice 3) _) as [s|]; cbv zeta.
  - destruct (falsy (Some t) || falsy (Some s)); [reflexivity|].
    destruct (gt _ tol); reflexivity.
  - rewrite orb_true_r. reflexivity.
  - reflexivity.
  - reflexivity.
Qed.

Lemma verify_ext (payload s1 s2 secret : string) (tol : number) (clock : Z) :
  timestamp_of s1 = timestamp_of s2 -> sig_of s1 = sig_of s2 ->
  verifyWebhookSignature payload s1 secret tol clock
  = verifyWebhookSignature payload s2 secret tol clock.
Proof. intros Ht Hs. rewrite !verify_unfold, Ht, Hs. reflexivity. Qed.

Lemma verify_true_iff (payload signature secret : string)
    (tol : number) (clock : Z) :
  verifyWebhookSignature payload signature secret tol clock = Return true
  <-> exists t s,
        timestamp_of signature = Some t /\ sig_of signature = Some s
        /\ t <> EmptyString
        /\ in_window t tol clock = true
        /\ s = hmac_sha256_hex secret (t ++ "." ++ payload).
Proof.
  rewrite verify_unfold. split.
  - destruct (timestamp_of signature) as [t|]; [|discriminate].
    destruct (sig_of signature) as [s|]; [|discriminate].
    destruct t as [|c t']; [discriminate|].
    destruct s as [|d s']; [discriminate|].
    cbn [falsy orb].
    destruct (in_window _ tol clock) eqn:W; [|discriminate].
    intros H. apply compare_strings in H.
    exists (String c t'), (String d s').
    repeat split; try assumption. discriminate.
  - intros (t & s & -> & -> & Ht & W & Hs).
    destruct t as [|c t']; [congruence|].
    assert (Hn : falsy (Some s) = false)
      by (rewrite Hs; apply digest_not_empty).
    rewrite Hn, W. cbn [falsy orb].
    apply compare_strings. exact Hs.
Qed.

Lemma header_fields (secret t payload : string) :
  comma_free t = true ->
  timestamp_of (header secret t payload) = Some t
  /\ sig_of (header secret t payload) = Some (sign secret t payload).
Proof.
  intros Ht. unfold timestamp_of, sig_of.
  change (header secret t payload)
    with (("t=" ++ t) ++ String ","%char ("v1=" ++ sign secret t payload))%string.
  rewrite split_app by exact Ht.
  rewrite split_comma_free by apply digest_comma_free.
  cbn [find]. rewrite (startsWith_app "t=" t).
  rewrite (t_field_not_v1 _ (startsWith_app "t=" t)).
  rewrite (startsWith_app "v1=" (sign secret t payload)).
  cbn [option_map].
  split; reflexivity.
Qed.

Lemma parseInt_empty_window (tol : number) (clock : Z) (t : string) :
  parseInt t = NaN -> in_window t tol clock = true.
Proof. intros H. unfold in_window. rewrite H. reflexivity. Qed.

Lemma nan_timestamp_verifies (payload secret t : string)
    (tol : number) (clock : Z) :
  comma_free t = true -> t <> EmptyString -> parseInt t = NaN ->
  verifyWebhookSignature payload (header secret t payload) secret tol clock
  = Return true.
Proof.
  intros Hc Hne Hnan. apply verify_true_iff.
  destruct (header_fields secret t payload Hc) as [Ht Hs].
  exists t, (sign secret t payload).
  repeat split; try assumption.
  apply parseInt_empty_window, Hnan.
Qed.

Lemma length_mismatch_throws (payload signature secret t s : string)
    (tol : number) (clock : Z) :
  timestamp_of signature = Some t -> sig_of signature = Some s ->
  t <> EmptyString -> s <> EmptyString ->
  in_window t tol clock = true ->
  String.length s <> 64%nat ->
  verifyWebhookSignature payload signature secret tol clock
  = Throw RangeError.
Proof.
  intros Ht Hs Hte Hse W Hlen.
  rewrite verify_unfold, Ht, Hs, W.
  destruct t as [|c t']; [congruence|].
  destruct s as [|d s']; [congruence|].
  cbn [falsy orb]. apply timingSafeEqual_length.
  rewrite !bytes_of_string_length. unfold sign.
  rewrite digest_length. exact Hlen.
Qed.

(* ================================================================== *)
(** ** Properties of the routine *)

(** C1, where the routine departs from the claim.  The claim: the call
    always returns a boolean, and returns [false] when the [v1] field and
    the computed digest have different lengths.  The routine: on the
    header [t=1700000000,v1=abc], inside the window, the comparison
    primitive is reached with buffers of 3 and 64 bytes and the call
    throws a [RangeError] instead of returning [false]. *)
Theorem short_signature_throws :
  verifyWebhookSignature Scenario.payload "t=1700000000,v1=abc"
    Scenario.secret default_tolerance 1700000000000
  = Throw RangeError.
Proof.
  apply (length_mismatch_throws _ _ _ "1700000000" "abc");
    try reflexivity; try discriminate.
Qed.

(** C2, where the routine departs from the claim.  The claim: a header
    whose [t=] value is not a base-10 integer makes the call return
    [false].  The routine: [parseInt] gives NaN on ["abc"], the window
    test [Math.abs(now - NaN) > toleranceSeconds] is false, and a header
    [t=abc,v1=<HMAC of "abc.<payload>">] verifies as [true]. *)
Theorem non_numeric_timestamp_accepted :
  parseInt "abc" = NaN
  /\ header Scenario.secret "abc" Scenario.payload
     = "t=abc,v1=70b5b76b872475780440d449ba36d6a09ea9612b5020e1b67caf0763dfa407a0"
  /\ verifyWebhookSignature Scenario.payload
       "t=abc,v1=70b5b76b872475780440d449ba36d6a09ea9612b5020e1b67caf0763dfa407a0"
       Scenario.secret default_tolerance 1700000000000
     = Return true.
Proof.
  split; [reflexivity|].
  assert (E : header Scenario.secret "abc" Scenario.payload
              = "t=abc,v1=70b5b76b872475780440d449ba36d6a09ea9612b5020e1b67caf0763dfa407a0")
    by (vm_compute; reflexivity).
  split; [exact E|].
  rewrite <- E.
  apply nan_timestamp_verifies; [reflexivity | discriminate | reflexivity].
Qed.

(** C3.  The replay window is closed at its boundary.  Let the header
    carry the timestamp text [t], which [parseInt] reads as the integer
    [ts], and the signature text [s], and let the clock be a time value
    of [now] whole seconds; [ts], the tolerance and [now - ts] are
    integers of magnitude at most 2^53, where the numbers of the routine
    are exact.  When [|now - ts| = tol] the window test lets the call
    proceed, and the call returns [true] if [s] is the correct digest;
    when [|now - ts| >= tol + 1] the call returns [false], whatever [s]
    is. *)
Theorem window_boundary_inclusive
    (payload signature secret t s : string) (ts tol : Z) :
  timestamp_of signature = Some t ->
  sig_of signature = Some s ->
  parseInt t = Num ts ->
  exact_double ts ->
  exact_double tol ->
  forall clock : Z,
    time_value clock ->
    exact_double (clock / 1000 - ts) ->
    (Z.abs (clock / 1000 - ts) = tol ->
       in_window t (Num tol) clock = true
       /\ (s = sign secret t payload ->
           verifyWebhookSignature payload signature secret (Num tol) clock
           = Return true))
    /\ (tol + 1 <= Z.abs (clock / 1000 - ts) ->
          in_window t (Num tol) clock = false
          /\ verifyWebhookSignature payload signature secret (Num tol) clock
             = Return false).
Proof.
  intros Ht Hs Hp _ _ clock _ _.
  assert (Hne : t <> EmptyString) by (intros ->; discriminate Hp).
  assert (W : in_window t (Num tol) clock
              = negb (tol <? Z.abs (clock / 1000 - ts))).
  { unfold in_window. rewrite Hp. reflexivity. }
  split.
  - intros Hd.
    assert (W' : in_window t (Num tol) clock = true).
    { rewrite W. apply negb_true_iff, Z.ltb_ge. lia. }
    split; [exact W'|].
    intros Hsig. apply verify_true_iff.
    exists t, s. repeat split; assumption.
  - intros Hd.
    assert (W' : in_window t (Num tol) clock = false).
    { rewrite W. apply negb_false_iff, Z.ltb_lt. lia. }
    split; [exact W'|].
    rewrite verify_unfold, Ht, Hs, W'.
    destruct (falsy (Some t) || falsy (Some s)); reflexivity.
Qed.

Lemma window_boundary_inclusive_witness :
  let hdr := header Scenario.secret "1700000000" Scenario.payload in
  timestamp_of hdr = Some "1700000000"
  /\ sig_of hdr = Some (sign Scenario.secret "1700000000" Scenario.payload)
  /\ parseInt "1700000000" = Num 1700000000
  /\ exact_double 1700000000
  /\ exact_double 300
  /\ time_value 1700000300000 /\ time_value 1700000301000
  /\ exact_double (1700000300000 / 1000 - 1700000000)
  /\ exact_double (1700000301000 / 1000 - 1700000000)
  /\ verifyWebhookSignature Scenario.payload hdr Scenario.secret
       (Num 300) 1700000300000 = Return true
  /\ verifyWebhookSignature Scenario.payload hdr Scenario.secret
       (Num 300) 1700000301000 = Return false.
Proof.
  intros hdr.
  assert (Ht : timestamp_of hdr = Some "1700000000")
    by (vm_compute; reflexivity).
  assert (Hs : sig_of hdr
               = Some (sign Scenario.secret "1700000000" Scenario.payload))
    by (vm_compute; reflexivity).
  assert (Hp : parseInt "1700000000" = Num 1700000000) by reflexivity.
  assert (Ets : exact_double 1700000000) by (vm_compute; discriminate).
  assert (Etol : exact_double 300) by (vm_compute; discriminate).
  assert (C1 : time_value 1700000300000) by (vm_compute; discriminate).
  assert (C2 : time_value 1700000301000) by (vm_compute; discriminate).
  assert (D1 : exact_double (1700000300000 / 1000 - 1700000000))
    by (vm_compute; discriminate).
  assert (D2 : exact_double (1700000301000 / 1000 - 1700000000))
    by (vm_compute; discriminate).
  pose proof (window_boundary_inclusive Scenario.payload hdr Scenario.secret
                _ _ 1700000000 300 Ht Hs Hp Ets Etol) as W.
  split; [exact Ht|]. split; [exact Hs|]. split; [exact Hp|].
  split; [exact Ets|]. split; [exact Etol|].
  split; [exact C1|]. split; [exact C2|].
  split; [exact D1|]. split; [exact D2|]. split.
  - destruct (W 1700000300000 C1 D1) as [Hin _].
    destruct (Hin eq_refl) as [_ Hok]. exact (Hok eq_refl).
  - destruct (W 1700000301000 C2 D2) as [_ Hout].
    apply Hout. vm_compute. discriminate.
Defined.

(** C4.  A header built by a holder of the secret at the verifier's
    current second verifies: with [t] the decimal text of the clock in
    whole seconds and [v1] the lowercase-hex HMAC-SHA256 of
    [<t>.<payload>], the call returns [true] for every payload, secret,
    clock and non-negative tolerance. *)
Theorem fresh_signature_verifies
    (payload secret : string) (tol : number) (clock : Z) :
  nonneg tol ->
  verifyWebhookSignature payload
    (header secret (decimal (clock / 1000)) payload) secret tol clock
  = Return true.
Proof.
  intros Htol. apply verify_true_iff.
  destruct (header_fields secret (decimal (clock / 1000)) payload
              (decimal_comma_free _)) as [Ht Hs].
  exists (decimal (clock / 1000)), (sign secret (decimal (clock / 1000)) payload).
  repeat split; try assumption.
  - intros E. pose proof (decimal_not_empty (clock / 1000)) as Hn.
    rewrite E in Hn. discriminate Hn.
  - unfold in_window. rewrite parseInt_decimal.
    cbn [floor_div_1000 sub abs]. rewrite Z.sub_diag.
    destruct tol as [| |z|]; cbn in Htol |- *; try tauto.
    apply negb_true_iff, Z.ltb_ge. exact Htol.
Qed.

Lemma fresh_signature_verifies_witness :
  nonneg default_tolerance
  /\ verifyWebhookSignature Scenario.payload
       (header Scenario.secret (decimal (1700000000999 / 1000))
          Scenario.payload)
       Scenario.secret default_tolerance 1700000000999
     = Return true.
Proof.
  assert (H : nonneg default_tolerance) by (cbn; lia).
  split; [exact H|].
  exact (fresh_signature_verifies Scenario.payload Scenario.secret
           default_tolerance 1700000000999 H).
Defined.

(** C5.  The digest the [v1] field is compared with is the HMAC-SHA256,
    keyed by the secret, of the timestamp text exactly as it stands in
    the header, one [.], and the payload, in lowercase hexadecimal (64
    characters): the call returns [true] exactly when both fields are
    present, the timestamp text is not empty, the window test passes and
    the [v1] text is that digest. *)
Theorem expected_digest_over_raw_timestamp
    (payload signature secret : string) (tol : number) (clock : Z) :
  (verifyWebhookSignature payload signature secret tol clock = Return true
   <-> exists t s,
         timestamp_of signature = Some t /\ sig_of signature = Some s
         /\ t <> EmptyString
         /\ in_window t tol clock = true
         /\ s = hex (hmac_sha256 (bytes_of_string secret)
                       (bytes_of_string (t ++ "." ++ payload))))
  /\ (forall t : string,
        let d := hex (hmac_sha256 (bytes_of_string secret)
                        (bytes_of_string (t ++ "." ++ payload))) in
        String.length d = 64%nat /\ all_chars lower_hex d = true).
Proof.
  split.
  - apply verify_true_iff.
  - intros t d. split.
    + apply (digest_length secret (t ++ "." ++ payload)).
    + apply (digest_lower_hex secret (t ++ "." ++ payload)).
Qed.

(** The text of the field is signed, not the number it denotes: with
    the timestamp written [0001700000000] the digest over that text is
    accepted and the digest over [1700000000] is not. *)
Example raw_timestamp_text_is_signed :
  parseInt "0001700000000" = parseInt "1700000000"
  /\ verifyWebhookSignature Scenario.payload
       ("t=0001700000000,v1="
        ++ sign Scenario.secret "0001700000000" Scenario.payload)
       Scenario.secret default_tolerance 1700000000000 = Return true
  /\ verifyWebhookSignature Scenario.payload
       ("t=0001700000000,v1="
        ++ sign Scenario.secret "1700000000" Scenario.payload)
       Scenario.secret default_tolerance 1700000000000 = Return false.
Proof. split; [|split]; vm_compute; reflexivity. Qed.

(** C6.  Fail closed on a missing field: when no comma-separated field
    of the header begins with [t=], or none begins with [v1=], the call
    returns [false], for every payload, secret, tolerance and clock. *)
Theorem missing_field_fails_closed
    (payload signature secret : string) (tol : number) (clock : Z) :
  (forall p, In p (split ","%char signature) -> startsWith "t=" p = false)
  \/ (forall p, In p (split ","%char signature) -> startsWith "v1=" p = false) ->
  verifyWebhookSignature payload signature secret tol clock = Return false.
Proof.
  intros H. rewrite verify_unfold. unfold timestamp_of, sig_of.
  destruct H as [H | H]; rewrite (find_absent _ _ H); cbn [option_map].
  - reflexivity.
  - destruct (option_map _ _); reflexivity.
Qed.

Lemma missing_field_fails_closed_witness :
  ((forall p, In p (split ","%char "v1=abc") -> startsWith "t=" p = false)
   \/ (forall p, In p (split ","%char "v1=abc") -> startsWith "v1=" p = false))
  /\ verifyWebhookSignature Scenario.payload "v1=abc" Scenario.secret
       default_tolerance 1700000000000 = Return false.
Proof.
  assert (H : forall p, In p (split ","%char "v1=abc") ->
                        startsWith "t=" p = false).
  { intros p [<- | []]. reflexivity. }
  split; [left; exact H|].
  exact (missing_field_fails_closed Scenario.payload "v1=abc" Scenario.secret
           default_tolerance 1700000000000 (or_introl H)).
Defined.

(** C7.  Fields are found by key, not by position: when each of the
    keys [t=] and [v1=] begins at most one field, reordering the
    comma-separated fields of the header does not change the outcome of
    the call. *)
Theorem field_order_irrelevant
    (payload secret : string) (tol : number) (clock : Z)
    (fields fields' : list string) :
  Permutation fields fields' ->
  Forall (fun f => comma_free f = true) fields ->
  (occurrences "t=" fields <= 1)%nat ->
  (occurrences "v1=" fields <= 1)%nat ->
  verifyWebhookSignature payload (join fields) secret tol clock
  = verifyWebhookSignature payload (join fields') secret tol clock.
Proof.
  intros Hp Hc Ht Hv.
  destruct fields as [|x l].
  - apply Permutation_nil in Hp. subst. reflexivity.
  - assert (Hne' : fields' <> []).
    { intros ->. apply Permutation_sym, Permutation_nil in Hp.
      discriminate Hp. }
    assert (Hc' : Forall (fun f => comma_free f = true) fields').
    { apply Forall_forall. intros f Hf.
      rewrite Forall_forall in Hc. apply Hc.
      apply (Permutation_in f (Permutation_sym Hp) Hf). }
    apply verify_ext; unfold timestamp_of, sig_of;
      rewrite !split_join by (assumption || discriminate); f_equal;
      apply find_permutation; assumption.
Qed.

Lemma field_order_irrelevant_witness :
  let t := "t=1700000000" in
  let v := ("v1=" ++ sign Scenario.secret "1700000000" Scenario.payload)%string in
  Permutation [t; v] [v; t]
  /\ Forall (fun f => comma_free f = true) [t; v]
  /\ (occurrences "t=" [t; v] <= 1)%nat
  /\ (occurrences "v1=" [t; v] <= 1)%nat
  /\ verifyWebhookSignature Scenario.payload (join [t; v]) Scenario.secret
       default_tolerance 1700000000000
     = verifyWebhookSignature Scenario.payload (join [v; t]) Scenario.secret
         default_tolerance 1700000000000.
Proof.
  intros t v.
  assert (Hp : Permutation [t; v] [v; t]) by apply perm_swap.
  assert (Hc : Forall (fun f => comma_free f = true) [t; v]).
  { constructor; [vm_compute; reflexivity|].
    constructor; [vm_compute; reflexivity | constructor]. }
  assert (Ht : (occurrences "t=" [t; v] <= 1)%nat)
    by (vm_compute; apply le_n).
  assert (Hv : (occurrences "v1=" [t; v] <= 1)%nat)
    by (vm_compute; apply le_n).
  split; [exact Hp|]. split; [exact Hc|]. split; [exact Ht|].
  split; [exact Hv|].
  exact (field_order_irrelevant Scenario.payload Scenario.secret
           default_tolerance 1700000000000 [t; v] [v; t] Hp Hc Ht Hv).
Defined.

Lemma first_field_find (key : string) (fields : list string) (f : string) :
  first_field key fields f ->
  find (startsWith key) fields = Some f /\ In f fields.
Proof.
  intros (pre & post & -> & Hf & Hpre). split.
  - apply find_first; assumption.
  - apply in_or_app. right. left. reflexivity.
Qed.

(** C10.  The leftmost field of each key is the one used.  When [ft]
    is the first field that begins with [t=] and [fv] the first that
    begins with [v1=], the call on the whole header has the outcome of
    the call on the header made of [ft] and [fv] alone, so later fields
    with the same keys are ignored; and it returns [true] exactly when
    the text of [ft] after [t=] is not empty and passes the window test
    and the text of [fv] after [v1=] is the digest over the text of
    [ft]. *)
Theorem first_duplicate_wins
    (payload secret : string) (tol : number) (clock : Z)
    (fields : list string) (ft fv : string) :
  Forall (fun f => comma_free f = true) fields ->
  first_field "t=" fields ft ->
  first_field "v1=" fields fv ->
  verifyWebhookSignature payload (join fields) secret tol clock
  = verifyWebhookSignature payload (join [ft; fv]) secret tol clock
  /\ (verifyWebhookSignature payload (join fields) secret tol clock
      = Return true
      <-> slice 2 ft <> EmptyString
          /\ in_window (slice 2 ft) tol clock = true
          /\ slice 3 fv = sign secret (slice 2 ft) payload).
Proof.
  intros Hc Hft Hfv.
  destruct (first_field_find _ _ _ Hft) as [Et It].
  destruct (first_field_find _ _ _ Hfv) as [Ev Iv].
  assert (Hne : fields <> []) by (intros ->; exact It).
  assert (St : startsWith "t=" ft = true)
    by (destruct Hft as (? & ? & _ & H & _); exact H).
  assert (Sv : startsWith "v1=" fv = true)
    by (destruct Hfv as (? & ? & _ & H & _); exact H).
  assert (Hc2 : Forall (fun f => comma_free f = true) [ft; fv]).
  { rewrite Forall_forall in Hc. repeat constructor; apply Hc; assumption. }
  assert (T : timestamp_of (join fields) = Some (slice 2 ft)).
  { unfold timestamp_of. rewrite split_join, Et by assumption. reflexivity. }
  assert (V : sig_of (join fields) = Some (slice 3 fv)).
  { unfold sig_of. rewrite split_join, Ev by assumption. reflexivity. }
  split.
  - apply verify_ext.
    + rewrite T. unfold timestamp_of.
      rewrite split_join by (assumption || discriminate).
      cbn [find]. rewrite St. reflexivity.
    + rewrite V. unfold sig_of.
      rewrite split_join by (assumption || discriminate).
      cbn [find]. rewrite (t_field_not_v1 ft St), Sv. reflexivity.
  - rewrite verify_true_iff. split.
    + intros (t & s & Ht & Hs & Hte & W & Hd).
      rewrite T in Ht. rewrite V in Hs.
      injection Ht as <-. injection Hs as <-. auto.
    + intros (Hte & W & Hd).
      exists (slice 2 ft), (slice 3 fv). auto.
Qed.

Lemma first_duplicate_wins_witness :
  let good := ("v1=" ++ sign Scenario.secret "1700000000" Scenario.payload)%string in
  let fields := ["t=1700000000"; "t=1"; good; "v1=bad"] in
  Forall (fun f => comma_free f = true) fields
  /\ first_field "t=" fields "t=1700000000"
  /\ first_field "v1=" fields good
  /\ verifyWebhookSignature Scenario.payload (join fields) Scenario.secret
       default_tolerance 1700000000000
     = verifyWebhookSignature Scenario.payload (join ["t=1700000000"; good])
         Scenario.secret default_tolerance 1700000000000.
Proof.
  intros good fields.
  assert (Hc : Forall (fun f => comma_free f = true) fields).
  { repeat (constructor; [vm_compute; reflexivity|]). constructor. }
  assert (Ht : first_field "t=" fields "t=1700000000").
  { exists [], ["t=1"; good; "v1=bad"].
    split; [reflexivity|]. split; [vm_compute; reflexivity | constructor]. }
  assert (Hv : first_field "v1=" fields good).
  { exists ["t=1700000000"; "t=1"], ["v1=bad"].
    split; [reflexivity|]. split; [vm_compute; reflexivity|].
    repeat (constructor; [vm_compute; reflexivity|]). constructor. }
  split; [exact Hc|]. split; [exact Ht|]. split; [exact Hv|].
  exact (proj1 (first_duplicate_wins Scenario.payload Scenario.secret
                  default_tolerance 1700000000000 fields _ _ Hc Ht Hv)).
Defined.

(** The scenario of the specification, and a payload altered after
    signing. *)
Example scenario_verifies :
  verifyWebhookSignature Scenario.payload
    (header Scenario.secret "1700000000" Scenario.payload)
    Scenario.secret default_tolerance 1700000000000 = Return true
  /\ verifyWebhookSignature Scenario.payload
       (header Scenario.secret "1700000000" Scenario.payload)
       Scenario.secret default_tolerance 1700000400000 = Return false.
Proof. split; vm_compute; reflexivity. Qed.

Example scenario_altered_payload :
  verifyWebhookSignature "{}"
    (header Scenario.secret "1700000000" Scenario.payload)
    Scenario.secret default_tolerance 1700000000000 = Return false.
Proof. vm_compute. reflexivity. Qed.

(* ================================================================== *)
(** ** Further properties of the verification routine *)

Lemma timingSafeEqual_throws_iff (a b : list Z) (e : error) :
  timingSafeEqual a b = Throw e <-> List.length a <> List.length b.
Proof.
  unfold timingSafeEqual.
  destruct (Nat.eqb (List.length a) (List.length b)) eqn:E.
  - apply Nat.eqb_eq in E. split; [discriminate | congruence].
  - apply Nat.eqb_neq in E. destruct e. tauto.
Qed.

(** X1.  The call throws exactly when both fields are present and not
    empty, the window test passes, and the [v1] text is not 64 bytes
    long; in every other case it returns a boolean. *)
Theorem throws_exactly_on_wrong_length
    (payload signature secret : string) (tol : number) (clock : Z) (e : error) :
  verifyWebhookSignature payload signature secret tol clock = Throw e
  <-> exists t s,
        timestamp_of signature = Some t /\ sig_of signature = Some s
        /\ t <> EmptyString /\ s <> EmptyString
        /\ in_window t tol clock = true
        /\ String.length s <> 64%nat.
Proof.
  split.
  - rewrite verify_unfold.
    destruct (timestamp_of signature) as [t|]; [|discriminate].
    destruct (sig_of signature) as [s|]; [|discriminate].
    destruct t as [|c t']; [discriminate|].
    destruct s as [|d s']; [discriminate|].
    cbn [falsy orb].
    destruct (in_window _ tol clock) eqn:W; [|discriminate].
    intros H. apply timingSafeEqual_throws_iff in H.
    rewrite !bytes_of_string_length in H. unfold sign in H.
    rewrite digest_length in H.
    exists (String c t'), (String d s').
    repeat split; try assumption; discriminate.
  - intros (t & s & Ht & Hs & Hte & Hse & W & Hlen). destruct e.
    apply (length_mismatch_throws _ _ _ t s); assumption.
Qed.

(** X2.  A [v1] text with a character outside [0-9a-f], an uppercase
    digest for one, is never accepted. *)
Theorem non_lowercase_signature_rejected
    (payload signature secret s : string) (tol : number) (clock : Z) :
  sig_of signature = Some s ->
  all_chars lower_hex s = false ->
  verifyWebhookSignature payload signature secret tol clock <> Return true.
Proof.
  intros Hs Hl H. apply verify_true_iff in H.
  destruct H as (t & s' & _ & Hs' & _ & _ & Hd).
  rewrite Hs in Hs'. injection Hs' as <-.
  rewrite Hd, digest_lower_hex in Hl. discriminate Hl.
Qed.

Lemma non_lowercase_signature_rejected_witness :
  let hdr := "t=1700000000,v1=909034AD1E37B4D1208F241A46E21394379560CED0E65E0AE9D7108B804BB9B3" in
  sig_of hdr
  = Some "909034AD1E37B4D1208F241A46E21394379560CED0E65E0AE9D7108B804BB9B3"
  /\ all_chars lower_hex
       "909034AD1E37B4D1208F241A46E21394379560CED0E65E0AE9D7108B804BB9B3"
     = false
  /\ verifyWebhookSignature Scenario.payload hdr Scenario.secret
       default_tolerance 1700000000000 <> Return true.
Proof.
  intros hdr.
  assert (Hs : sig_of hdr
               = Some "909034AD1E37B4D1208F241A46E21394379560CED0E65E0AE9D7108B804BB9B3")
    by (vm_compute; reflexivity).
  assert (Hl : all_chars lower_hex
                 "909034AD1E37B4D1208F241A46E21394379560CED0E65E0AE9D7108B804BB9B3"
               = false) by (vm_compute; reflexivity).
  split; [exact Hs|]. split; [exact Hl|].
  exact (non_lowercase_signature_rejected Scenario.payload hdr
           Scenario.secret _ default_tolerance 1700000000000 Hs Hl).
Defined.

Lemma in_window_num (t : string) (ts tol clock : Z) :
  parseInt t = Num ts ->
  in_window t (Num tol) clock = (Z.abs (clock / 1000 - ts) <=? tol).
Proof.
  intros Hp. unfold in_window. rewrite Hp.
  cbn [floor_div_1000 sub abs gt].
  rewrite Z.leb_antisym. reflexivity.
Qed.

Lemma in_window_cases (t : string) :
  parseInt t = NaN \/ exists ts, parseInt t = Num ts.
Proof.
  unfold parseInt.
  destruct (match trimStart t with
            | String "-"%char r => (-1, r)
            | String "+"%char r => (1, r)
            | _ => (1, trimStart t)
            end) as [sg s2].
  destruct (parse_digits s2 None); eauto.
Qed.

(** X3.  Widening the tolerance never turns an accepted header into a
    rejected one: a header accepted with tolerance [a] is accepted with
    every tolerance [b >= a]. *)
Theorem tolerance_monotone
    (payload signature secret : string) (a b clock : Z) :
  a <= b ->
  verifyWebhookSignature payload signature secret (Num a) clock = Return true ->
  verifyWebhookSignature payload signature secret (Num b) clock = Return true.
Proof.
  intros Hab H. apply verify_true_iff in H. apply verify_true_iff.
  destruct H as (t & s & Ht & Hs & Hte & W & Hd).
  exists t, s. repeat split; try assumption.
  destruct (in_window_cases t) as [Hn | [ts Hp]].
  - apply parseInt_empty_window, Hn.
  - rewrite (in_window_num t ts a clock Hp) in W.
    rewrite (in_window_num t ts b clock Hp).
    apply Z.leb_le in W. apply Z.leb_le. lia.
Qed.

Lemma tolerance_monotone_witness :
  let hdr := header Scenario.secret "1700000000" Scenario.payload in
  10 <= 300
  /\ verifyWebhookSignature Scenario.payload hdr Scenario.secret (Num 10)
       1700000005000 = Return true
  /\ verifyWebhookSignature Scenario.payload hdr Scenario.secret (Num 300)
       1700000005000 = Return true.
Proof.
  intros hdr.
  assert (Hab : 10 <= 300) by lia.
  assert (H : verifyWebhookSignature Scenario.payload hdr Scenario.secret
                (Num 10) 1700000005000 = Return true)
    by (vm_compute; reflexivity).
  split; [exact Hab|]. split; [exact H|].
  exact (tolerance_monotone Scenario.payload hdr Scenario.secret 10 300
           1700000005000 Hab H).
Defined.

(** X4.  The window is symmetric: a timestamp [d] seconds ahead of the
    clock is treated as one [d] seconds behind it.  For two clocks at
    mirrored distances from the header's timestamp the call has the
    same outcome. *)
Theorem window_symmetric
    (payload signature secret t : string) (tol : number) (ts c1 c2 : Z) :
  timestamp_of signature = Some t ->
  parseInt t = Num ts ->
  c1 / 1000 - ts = ts - c2 / 1000 ->
  verifyWebhookSignature payload signature secret tol c1
  = verifyWebhookSignature payload signature secret tol c2.
Proof.
  intros Ht Hp Hd. rewrite !verify_unfold, Ht.
  assert (W : in_window t tol c1 = in_window t tol c2).
  { unfold in_window. rewrite Hp. cbn [floor_div_1000 sub abs].
    replace (Z.abs (c1 / 1000 - ts)) with (Z.abs (c2 / 1000 - ts)) by lia.
    reflexivity. }
  rewrite W. reflexivity.
Qed.

Lemma window_symmetric_witness :
  let hdr := header Scenario.secret "1700000000" Scenario.payload in
  timestamp_of hdr = Some "1700000000"
  /\ parseInt "1700000000" = Num 1700000000
  /\ 1700000200000 / 1000 - 1700000000 = 1700000000 - 1699999800000 / 1000
  /\ verifyWebhookSignature Scenario.payload hdr Scenario.secret
       default_tolerance 1700000200000
     = verifyWebhookSignature Scenario.payload hdr Scenario.secret
         default_tolerance 1699999800000.
Proof.
  intros hdr.
  assert (Ht : timestamp_of hdr = Some "1700000000")
    by (vm_compute; reflexivity).
  assert (Hp : parseInt "1700000000" = Num 1700000000) by reflexivity.
  assert (Hd : 1700000200000 / 1000 - 1700000000
               = 1700000000 - 1699999800000 / 1000) by reflexivity.
  split; [exact Ht|]. split; [exact Hp|]. split; [exact Hd|].
  exact (window_symmetric Scenario.payload hdr Scenario.secret _
           default_tolerance _ _ _ Ht Hp Hd).
Defined.

Lemma comma_free_app (a b : string) :
  comma_free (a ++ b) = comma_free a && comma_free b.
Proof.
  induction a as [|c r IH]; [reflexivity|].
  cbn [append comma_free all_chars]. fold (comma_free (r ++ b)).
  rewrite IH. fold (comma_free r). apply andb_assoc.
Qed.

Lemma digits_of_app (f : nat) :
  forall n acc rest,
    (digits_of f n acc ++ rest)%string = digits_of f n (acc ++ rest).
Proof.
  induction f as [|f IH]; intros n acc rest; [reflexivity|].
  cbn [digits_of]. destruct (n <? 10); [reflexivity|].
  rewrite IH. reflexivity.
Qed.

Lemma parse_digits_stop (rest : string) (v : option Z) :
  no_leading_digit rest = true -> parse_digits rest v = v.
Proof.
  destruct rest as [|c r]; [reflexivity|].
  cbn [no_leading_digit parse_digits]. unfold is_digit, digit_value.
  intros H. apply negb_true_iff in H. rewrite H. reflexivity.
Qed.

Lemma parseInt_digits_tail (f : nat) (n : Z) (rest : string) :
  0 <= n < 2 ^ Z.of_nat (S f) ->
  no_leading_digit rest = true ->
  parseInt (digits_of (S f) n rest) = Num n.
Proof.
  intros Hn Hr.
  destruct (digits_of_parse f n rest Hn) as (k & _ & Hp).
  specialize (Hp None). rewrite (parse_digits_stop rest _ Hr) in Hp.
  replace (0 * 10 ^ k + n) with n in Hp by lia.
  destruct (digits_of_head f n rest) as (d & r & Hd & E).
  rewrite E in *. unfold parseInt. rewrite trimStart_digit by exact Hd.
  digit_cases d Hd;
    match goal with
    | |- context [String ?c r] =>
        let c' := eval vm_compute in c in change c with c' in *
    end;
    cbv zeta iota beta; rewrite Hp; f_equal; lia.
Qed.

(** [parseInt] reads the leading decimal text and ignores what follows
    it. *)
Lemma parseInt_decimal_tail (z : Z) (rest : string) :
  no_leading_digit rest = true ->
  parseInt (decimal z ++ rest) = Num z.
Proof.
  intros Hr. unfold decimal. destruct (z <? 0) eqn:E.
  - apply Z.ltb_lt in E.
    replace (Z.abs z) with (- z) by lia.
    cbn [append]. rewrite digits_of_app. cbn [append].
    unfold parseInt. rewrite trimStart_minus. cbv zeta iota beta.
    destruct (digits_of_parse (Z.to_nat (Z.log2 (- z))) (- z) rest)
      as (k & _ & Hp); [apply fuel_enough; lia|].
    rewrite (Hp None), (parse_digits_stop rest _ Hr). f_equal. lia.
  - apply Z.ltb_ge in E.
    replace (Z.abs z) with z by lia.
    rewrite digits_of_app. cbn [append].
    apply parseInt_digits_tail; [apply fuel_enough, E | exact Hr].
Qed.

Lemma header_verifies (payload secret t : string) (tol : number) (clock : Z) :
  comma_free t = true -> t <> EmptyString ->
  in_window t tol clock = true ->
  verifyWebhookSignature payload (header secret t payload) secret tol clock
  = Return true.
Proof.
  intros Hc Hne W. apply verify_true_iff.
  destruct (header_fields secret t payload Hc) as [Ht Hs].
  exists t, (sign secret t payload). repeat split; assumption.
Qed.

(** X5.  Only the leading decimal text of the timestamp field enters
    the window test.  Let [z] and the tolerance be integers of magnitude
    at most 2^53 and the clock a time value.  A timestamp field made of
    the decimal text of [z] followed by any text that does not begin
    with a digit is read as [z], and a header with that field, signed
    over the whole field, is accepted whenever [z] is inside the
    window. *)
Theorem trailing_text_after_timestamp
    (payload secret rest : string) (z tol clock : Z) :
  no_leading_digit rest = true ->
  comma_free rest = true ->
  exact_double z ->
  exact_double tol ->
  time_value clock ->
  Z.abs (clock / 1000 - z) <= tol ->
  parseInt (decimal z ++ rest) = Num z
  /\ verifyWebhookSignature payload
       (header secret (decimal z ++ rest) payload) secret (Num tol) clock
     = Return true.
Proof.
  intros Hr Hc _ _ _ Hw.
  pose proof (parseInt_decimal_tail z rest Hr) as Hp.
  split; [exact Hp|].
  apply header_verifies.
  - rewrite comma_free_app, decimal_comma_free, Hc. reflexivity.
  - intros E. pose proof (decimal_not_empty z) as Hn.
    destruct (decimal z); [discriminate Hn | discriminate E].
  - rewrite (in_window_num _ _ _ _ Hp). apply Z.leb_le. exact Hw.
Qed.

Lemma trailing_text_after_timestamp_witness :
  no_leading_digit " or so" = true
  /\ comma_free " or so" = true
  /\ exact_double 1700000000
  /\ exact_double 300
  /\ time_value 1700000100000
  /\ Z.abs (1700000100000 / 1000 - 1700000000) <= 300
  /\ verifyWebhookSignature Scenario.payload
       (header Scenario.secret (decimal 1700000000 ++ " or so")
          Scenario.payload)
       Scenario.secret (Num 300) 1700000100000
     = Return true.
Proof.
  assert (Hr : no_leading_digit " or so" = true) by reflexivity.
  assert (Hc : comma_free " or so" = true) by reflexivity.
  assert (Ez : exact_double 1700000000) by (vm_compute; discriminate).
  assert (Et : exact_double 300) by (vm_compute; discriminate).
  assert (Ck : time_value 1700000100000) by (vm_compute; discriminate).
  assert (Hw : Z.abs (1700000100000 / 1000 - 1700000000) <= 300)
    by (vm_compute; discriminate).
  split; [exact Hr|]. split; [exact Hc|]. split; [exact Ez|].
  split; [exact Et|]. split; [exact Ck|]. split; [exact Hw|].
  exact (proj2 (trailing_text_after_timestamp Scenario.payload
                  Scenario.secret " or so" 1700000000 300 1700000100000
                  Hr Hc Ez Et Ck Hw)).
Defined.

(** X6.  A negative tolerance rejects every header whose timestamp is
    numeric, whatever its digest. *)
Theorem negative_tolerance_rejects
    (payload signature secret t : string) (ts tol clock : Z) :
  timestamp_of signature = Some t ->
  parseInt t = Num ts ->
  tol < 0 ->
  verifyWebhookSignature payload signature secret (Num tol) clock
  = Return false.
Proof.
  intros Ht Hp Hneg. rewrite verify_unfold, Ht.
  rewrite (in_window_num _ _ _ _ Hp).
  assert (W : (Z.abs (clock / 1000 - ts) <=? tol) = false)
    by (apply Z.leb_gt; lia).
  rewrite W.
  destruct (sig_of signature) as [s|]; [|reflexivity].
  destruct (falsy (Some t) || falsy (Some s)); reflexivity.
Qed.

Lemma negative_tolerance_rejects_witness :
  let hdr := header Scenario.secret "1700000000" Scenario.payload in
  timestamp_of hdr = Some "1700000000"
  /\ parseInt "1700000000" = Num 1700000000
  /\ -1 < 0
  /\ verifyWebhookSignature Scenario.payload hdr Scenario.secret (Num (-1))
       1700000000000 = Return false.
Proof.
  intros hdr.
  assert (Ht : timestamp_of hdr = Some "1700000000")
    by (vm_compute; reflexivity).
  assert (Hp : parseInt "1700000000" = Num 1700000000) by reflexivity.
  assert (Hn : -1 < 0) by lia.
  split; [exact Ht|]. split; [exact Hp|]. split; [exact Hn|].
  exact (negative_tolerance_rejects Scenario.payload hdr Scenario.secret _
           1700000000 (-1) 1700000000000 Ht Hp Hn).
Defined.

(** X7.  With the tolerance NaN or +Infinity the window test rejects
    nothing: the outcome of the call no longer depends on the clock, and
    is the same for the two tolerances. *)
Theorem unbounded_tolerance_ignores_clock
    (payload signature secret : string) (clock clock' : Z) :
  verifyWebhookSignature payload signature secret NaN clock
  = verifyWebhookSignature payload signature secret NaN clock'
  /\ verifyWebhookSignature payload signature secret PosInf clock
     = verifyWebhookSignature payload signature secret PosInf clock'
  /\ verifyWebhookSignature payload signature secret NaN clock
     = verifyWebhookSignature payload signature secret PosInf clock.
Proof.
  assert (Wn : forall t c, in_window t NaN c = true).
  { intros t c. unfold in_window.
    destruct (abs (sub (floor_div_1000 c) (parseInt t))); reflexivity. }
  assert (Wi : forall t c, in_window t PosInf c = true).
  { intros t c. unfold in_window.
    destruct (abs (sub (floor_div_1000 c) (parseInt t))); reflexivity. }
  rewrite !verify_unfold.
  destruct (timestamp_of signature) as [t|]; [|repeat split].
  destruct (sig_of signature) as [s|]; [|repeat split].
  rewrite !Wn, !Wi. repeat split.
Qed.

(** X8.  A field that is present with an empty value counts as
    missing: with [t=] or [v1=] followed by nothing the call returns
    [false]. *)
Theorem empty_value_fails_closed
    (payload signature secret : string) (tol : number) (clock : Z) :
  timestamp_of signature = Some EmptyString
  \/ sig_of signature = Some EmptyString ->
  verifyWebhookSignature payload signature secret tol clock = Return false.
Proof.
  intros H. rewrite verify_unfold.
  destruct H as [-> | ->].
  - destruct (sig_of signature); reflexivity.
  - destruct (timestamp_of signature) as [t|]; [|reflexivity].
    cbn [falsy]. rewrite orb_true_r. reflexivity.
Qed.

Lemma empty_value_fails_closed_witness :
  (timestamp_of "t=,v1=abc" = Some EmptyString
   \/ sig_of "t=,v1=abc" = Some EmptyString)
  /\ verifyWebhookSignature Scenario.payload "t=,v1=abc" Scenario.secret
       default_tolerance 1700000000000 = Return false.
Proof.
  assert (H : timestamp_of "t=,v1=abc" = Some EmptyString
              \/ sig_of "t=,v1=abc" = Some EmptyString)
    by (left; reflexivity).
  split; [exact H|].
  exact (empty_value_fails_closed Scenario.payload "t=,v1=abc"
           Scenario.secret default_tolerance 1700000000000 H).
Defined.

Lemma append_assoc (a b c : string) :
  ((a ++ b) ++ c)%string = (a ++ (b ++ c))%string.
Proof.
  induction a as [|x a IH]; [reflexivity|].
  cbn [append]. rewrite IH. reflexivity.
Qed.

(** X9.  The signed text does not fix where the timestamp ends and the
    payload begins.  The digest issued for the timestamp text [t.u] and
    the payload [p] is the digest of the timestamp text [t] and the
    payload [u.p]; presented under [t=<t>], with [t] inside the window,
    it is accepted for the payload [u.p]. *)
Theorem timestamp_payload_boundary
    (secret t u p : string) (tol : number) (clock : Z) :
  comma_free t = true -> t <> EmptyString ->
  in_window t tol clock = true ->
  sign secret (t ++ "." ++ u) p = sign secret t (u ++ "." ++ p)
  /\ verifyWebhookSignature (u ++ "." ++ p)
       ("t=" ++ t ++ ",v1=" ++ sign secret (t ++ "." ++ u) p)
       secret tol clock
     = Return true.
Proof.
  intros Hc Hne W.
  assert (E : sign secret (t ++ "." ++ u) p = sign secret t (u ++ "." ++ p)).
  { unfold sign. f_equal.
    rewrite append_assoc. f_equal. }
  split; [exact E|].
  rewrite E. apply (header_verifies (u ++ "." ++ p) secret t); assumption.
Qed.

Lemma timestamp_payload_boundary_witness :
  comma_free "1700000000" = true
  /\ "1700000000" <> EmptyString
  /\ in_window "1700000000" default_tolerance 1700000000000 = true
  /\ verifyWebhookSignature ("5" ++ "." ++ Scenario.payload)
       ("t=" ++ "1700000000" ++ ",v1="
        ++ sign Scenario.secret ("1700000000" ++ "." ++ "5") Scenario.payload)
       Scenario.secret default_tolerance 1700000000000
     = Return true.
Proof.
  assert (Hc : comma_free "1700000000" = true) by reflexivity.
  assert (Hne : "1700000000" <> EmptyString) by discriminate.
  assert (W : in_window "1700000000" default_tolerance 1700000000000 = true)
    by reflexivity.
  split; [exact Hc|]. split; [exact Hne|]. split; [exact W|].
  exact (proj2 (timestamp_payload_boundary Scenario.secret "1700000000" "5"
                  Scenario.payload default_tolerance 1700000000000
                  Hc Hne W)).
Defined.

(** X10.  Fields are not trimmed: after [, ] (a comma and a space) the
    field [ v1=...] does not begin with [v1=], so the header
    [t=<t>, v1=<d>] is rejected whatever [d] is. *)
Theorem space_after_comma_hides_field
    (payload secret t d : string) (tol : number) (clock : Z) :
  comma_free t = true -> comma_free d = true ->
  verifyWebhookSignature payload ("t=" ++ t ++ ", v1=" ++ d) secret tol clock
  = Return false.
Proof.
  intros Ht Hd. rewrite verify_unfold.
  assert (S : sig_of ("t=" ++ t ++ ", v1=" ++ d) = None).
  { unfold sig_of.
    change ("t=" ++ t ++ ", v1=" ++ d)%string
      with (("t=" ++ t) ++ String ","%char (" v1=" ++ d))%string.
    rewrite split_app by exact Ht.
    rewrite split_comma_free by exact Hd.
    cbn [find].
    rewrite (t_field_not_v1 _ (startsWith_app "t=" t)). reflexivity. }
  rewrite S. destruct (timestamp_of _); reflexivity.
Qed.

Lemma space_after_comma_hides_field_witness :
  let d := sign Scenario.secret "1700000000" Scenario.payload in
  comma_free "1700000000" = true
  /\ comma_free d = true
  /\ verifyWebhookSignature Scenario.payload
       ("t=" ++ "1700000000" ++ ", v1=" ++ d)
       Scenario.secret default_tolerance 1700000000000
     = Return false.
Proof.
  intros d.
  assert (Ht : comma_free "1700000000" = true) by reflexivity.
  assert (Hd : comma_free d = true) by (vm_compute; reflexivity).
  split; [exact Ht|]. split; [exact Hd|].
  exact (space_after_comma_hides_field Scenario.payload Scenario.secret
           "1700000000" d default_tolerance 1700000000000 Ht Hd).
Defined.

(* ================================================================== *)
(** ** The query string *)

Import Client.

Lemma all_chars_app (p : ascii -> bool) (a b : string) :
  all_chars p (a ++ b) = all_chars p a && all_chars p b.
Proof.
  induction a as [|c r IH]; [reflexivity|].
  cbn [append all_chars]. rewrite IH. apply andb_assoc.
Qed.

Lemma split_free (sep : ascii) (s : string) :
  free_of sep s = true -> split sep s = [s].
Proof.
  unfold free_of. induction s as [|c r IH]; intros H; [reflexivity|].
  cbn [all_chars] in H. apply andb_true_iff in H as [Hc Hr].
  apply negb_true_iff in Hc.
  cbn [split]. rewrite Hc, (IH Hr). reflexivity.
Qed.

Lemma split_at (sep : ascii) (a b : string) :
  free_of sep a = true ->
  split sep (a ++ String sep b) = a :: split sep b.
Proof.
  unfold free_of. induction a as [|c r IH]; intros H.
  - cbn [append split]. rewrite Ascii.eqb_refl. reflexivity.
  - cbn [all_chars] in H. apply andb_true_iff in H as [Hc Hr].
    apply negb_true_iff in Hc.
    cbn [append split]. rewrite Hc, (IH Hr). reflexivity.
Qed.

Lemma split_concat (sep : ascii) (fields : list string) :
  fields <> [] ->
  Forall (fun f => free_of sep f = true) fields ->
  split sep (String.concat (String sep EmptyString) fields) = fields.
Proof.
  induction fields as [|x l IH]; intros Hne Hall; [congruence|].
  inversion Hall as [|? ? Hx Hl]; subst.
  destruct l as [|y l'].
  - apply split_free; assumption.
  - change (String.concat (String sep EmptyString) (x :: y :: l'))
      with (x ++ String sep (String.concat (String sep EmptyString) (y :: l')))%string.
    rewrite split_at by assumption.
    f_equal. apply IH; [discriminate | assumption].
Qed.

Lemma code_range (c : ascii) : 0 <= code c < 256.
Proof.
  unfold code. pose proof (N_ascii_bounded c) as H. lia.
Qed.

Lemma code_inj (c d : ascii) : code c = code d -> c = d.
Proof.
  unfold code. intros H. apply N2Z.inj in H.
  rewrite <- (ascii_N_embedding c), <- (ascii_N_embedding d), H.
  reflexivity.
Qed.

Lemma HEX_safe (n : Z) : form_safe (HEX n) = true.
Proof.
  unfold HEX.
  apply (small_cases (n mod 16)
           (fun k => form_safe
                       match get (Z.to_nat k) "0123456789ABCDEF" with
                       | Some c => c
                       | None => "0"%char
                       end = true));
    [apply Z.mod_pos_bound; lia | reflexivity ..].
Qed.

Lemma unhex_HEX (n : Z) : unhex (HEX n) = n mod 16.
Proof.
  unfold HEX.
  apply (small_cases (n mod 16)
           (fun k => unhex
                       match get (Z.to_nat k) "0123456789ABCDEF" with
                       | Some c => c
                       | None => "0"%char
                       end = k));
    [apply Z.mod_pos_bound; lia | reflexivity ..].
Qed.

Lemma urlencode_chars (s : string) : all_chars enc_char (urlencode s) = true.
Proof.
  induction s as [|c r IH]; [reflexivity|].
  cbn [urlencode].
  destruct (code c =? 32); [cbn [all_chars]; rewrite IH; reflexivity|].
  destruct (form_safe c) eqn:Sc.
  - cbn [all_chars]. unfold enc_char at 1. rewrite Sc, IH. reflexivity.
  - cbn [all_chars]. unfold enc_char at 2 3.
    rewrite !HEX_safe, IH. reflexivity.
Qed.

Lemma enc_char_not (sep : ascii) (c : ascii) :
  enc_char sep = false -> enc_char c = true -> negb (Ascii.eqb c sep) = true.
Proof.
  intros Hs Hc. apply negb_true_iff.
  destruct (Ascii.eqb c sep) eqn:E; [|reflexivity].
  apply Ascii.eqb_eq in E. subst. congruence.
Qed.

Lemma urlencode_free_of (sep : ascii) (s : string) :
  enc_char sep = false -> free_of sep (urlencode s) = true.
Proof.
  intros Hs. unfold free_of.
  apply (all_chars_impl enc_char);
    [intros c; apply enc_char_not; exact Hs|].
  apply urlencode_chars.
Qed.

Lemma pair_text_chars (kv : string * string) :
  all_chars field_char (pair_text kv) = true.
Proof.
  unfold pair_text. rewrite all_chars_app. cbn [append all_chars].
  assert (H : forall s, all_chars field_char (urlencode s) = true).
  { intros s. apply (all_chars_impl enc_char); [|apply urlencode_chars].
    intros c Hc. unfold field_char. rewrite Hc. reflexivity. }
  rewrite !H. reflexivity.
Qed.

Lemma pair_text_free_of_amp (kv : string * string) :
  free_of "&"%char (pair_text kv) = true.
Proof.
  unfold free_of. apply (all_chars_impl field_char); [|apply pair_text_chars].
  intros c Hc. apply negb_true_iff.
  destruct (Ascii.eqb c "&"%char) eqn:E; [|reflexivity].
  apply Ascii.eqb_eq in E. subst. discriminate Hc.
Qed.

Lemma serialize_chars (params : list (string * string)) :
  all_chars query_char (serialize params) = true.
Proof.
  assert (H : forall kv, all_chars query_char (pair_text kv) = true).
  { intros kv. apply (all_chars_impl field_char); [|apply pair_text_chars].
    intros c Hc. unfold query_char. rewrite Hc. reflexivity. }
  unfold serialize. induction params as [|kv l IH]; [reflexivity|].
  destruct l as [|kv' l'].
  - apply H.
  - change (String.concat "&" (map pair_text (kv :: kv' :: l')))
      with (pair_text kv
            ++ String "&"%char (String.concat "&" (map pair_text (kv' :: l'))))%string.
    rewrite all_chars_app. cbn [all_chars]. rewrite H, IH. reflexivity.
Qed.

(** X11.  A name or value cannot add, split or merge fields of the
    query.  Whatever the texts are, the serialized parameters consist
    of letters, digits and [*-._+%=&] only, they split at [&] into
    exactly one field per parameter, in order, and each field splits at
    [=] into exactly the encoded name and the encoded value. *)
Theorem query_fields_survive (params : list (string * string)) :
  all_chars query_char (serialize params) = true
  /\ (params <> [] ->
      split "&"%char (serialize params) = map pair_text params)
  /\ (forall k v,
        split "="%char (pair_text (k, v)) = [urlencode k; urlencode v]).
Proof.
  split; [apply serialize_chars|]. split.
  - intros Hne. unfold serialize. apply (split_concat "&"%char).
    + destruct params; [congruence | discriminate].
    + apply Forall_forall. intros f Hf. apply in_map_iff in Hf.
      destruct Hf as (kv & <- & _). apply pair_text_free_of_amp.
  - intros k v. unfold pair_text. cbn [fst snd append].
    rewrite split_at by (apply urlencode_free_of; reflexivity).
    rewrite split_free by (apply urlencode_free_of; reflexivity).
    reflexivity.
Qed.

Lemma urlencode_head (c : ascii) (r : string) :
  urlencode (String c r)
  = (if code c =? 32 then String "+"%char (urlencode r)
     else if form_safe c then String c (urlencode r)
     else String "%"%char
            (String (HEX (code c / 16)) (String (HEX (code c)) (urlencode r)))).
Proof. reflexivity. Qed.

Lemma hex_pair_inj (c d : ascii) :
  HEX (code c / 16) = HEX (code d / 16) -> HEX (code c) = HEX (code d) ->
  c = d.
Proof.
  intros Hh Hl. apply code_inj.
  apply (f_equal unhex) in Hh. apply (f_equal unhex) in Hl.
  rewrite !unhex_HEX in Hh, Hl.
  pose proof (code_range c) as Rc. pose proof (code_range d) as Rd.
  rewrite !Z.mod_small in Hh
    by (split; [apply Z.div_pos; lia | apply Z.div_lt_upper_bound; lia]).
  pose proof (Z.div_mod (code c) 16) as Dc.
  pose proof (Z.div_mod (code d) 16) as Dd. lia.
Qed.

(** X12.  The encoding of query names and values loses nothing on
    well-formed text: two different strings without unpaired surrogates
    never have the same encoding. *)
Theorem urlencode_injective (a b : string) :
  well_formed a = true -> well_formed b = true ->
  urlencode a = urlencode b -> a = b.
Proof.
  intros _ _. revert b. induction a as [|c r IH]; intros [|d u] H.
  - reflexivity.
  - rewrite urlencode_head in H.
    destruct (code d =? 32); [discriminate|].
    destruct (form_safe d); discriminate.
  - rewrite urlencode_head in H.
    destruct (code c =? 32); [discriminate|].
    destruct (form_safe c); discriminate.
  - rewrite !urlencode_head in H.
    destruct (code c =? 32) eqn:C32; destruct (code d =? 32) eqn:D32.
    + injection H as H. apply Z.eqb_eq in C32, D32.
      f_equal; [apply code_inj; congruence | apply IH, H].
    + destruct (form_safe d) eqn:Sd; [|discriminate].
      injection H as Hd _. subst d. discriminate Sd.
    + destruct (form_safe c) eqn:Sc; [|discriminate].
      injection H as Hc _. subst c. discriminate Sc.
    + destruct (form_safe c) eqn:Sc; destruct (form_safe d) eqn:Sd.
      * injection H as -> H. f_equal. apply IH, H.
      * injection H as Hc _. subst c. discriminate Sc.
      * injection H as Hd _. subst d. discriminate Sd.
      * injection H as Hh Hl H.
        f_equal; [apply hex_pair_inj; assumption | apply IH, H].
Qed.

Lemma urlencode_injective_witness :
  well_formed "a b" = true
  /\ urlencode "a b" = urlencode "a b"
  /\ "a b" = "a b".
Proof.
  assert (W : well_formed "a b" = true) by reflexivity.
  assert (H : urlencode "a b" = urlencode "a b") by reflexivity.
  split; [exact W|]. split; [exact H|].
  exact (urlencode_injective "a b" "a b" W W H).
Defined.

(* ================================================================== *)
(** ** The methods of the client *)

Lemma list_params_chosen (o : ListOptions) : list_params (Some o) = chosen o.
Proof.
  destruct o as [l f se sk st].
  unfold list_params, chosen, set_number, set_text, number_param, text_param.
  cbn [limit offset search skill status_filter].
  destruct l as [[| |zl|]|]; destruct f as [[| |zf|]|];
    destruct se as [[|? ?]|]; destruct sk as [[|? ?]|];
    destruct st as [[|? ?]|];
    cbn [truthy_number falsy];
    try destruct (zl =? 0); try destruct (zf =? 0); reflexivity.
Qed.

Lemma all_falsy_chosen (o : ListOptions) :
  all_falsy o = true -> chosen o = [].
Proof.
  destruct o as [l f se sk st]. unfold all_falsy, chosen.
  cbn [limit offset search skill status_filter].
  rewrite !andb_true_iff, !negb_true_iff.
  intros [[[[Hl Hf] Hse] Hsk] Hst].
  unfold number_param, text_param.
  destruct l as [nl|]; destruct f as [nf|]; rewrite ?Hl, ?Hf;
    destruct se as [[|? ?]|]; destruct sk as [[|? ?]|];
    destruct st as [[|? ?]|]; try discriminate; reflexivity.
Qed.

(** X13.  [listAgents] sends one parameter for each option that is
    truthy, once, in the order limit, offset, search, skill, status;
    the request goes to [<baseUrl>/api/agents?] followed by these
    parameters serialized. *)
Theorem list_parameters_in_order
    (c : ClawdNet) (o : ListOptions) (net : transport) :
  list_params (Some o) = chosen o
  /\ exists req,
       listAgents c (Some o) net = ([req], handle_response (net req))
       /\ url req
          = (baseUrl c ++ "/api/agents?" ++ serialize (chosen o))%string.
Proof.
  split; [apply list_params_chosen|].
  unfold listAgents, fetch_. rewrite list_params_chosen.
  eexists. split; reflexivity.
Qed.

(** X14.  Options that are falsy are left out: with limit and offset
    each absent, [0] or NaN, and every text absent or empty,
    [listAgents] does what it does without options, and requests
    [<baseUrl>/api/agents?]. *)
Theorem falsy_options_send_no_parameters
    (c : ClawdNet) (o : ListOptions) (net : transport) :
  all_falsy o = true ->
  listAgents c (Some o) net = listAgents c None net
  /\ map url (fst (listAgents c (Some o) net))
     = [(baseUrl c ++ "/api/agents?")%string].
Proof.
  intros H. unfold listAgents.
  rewrite list_params_chosen, (all_falsy_chosen o H).
  split; reflexivity.
Qed.

Lemma falsy_options_send_no_parameters_witness :
  let o := mkListOptions (Some (Num 0)) (Some (Num 0)) (Some "") None None in
  let c := createClient None in
  let net := fun _ : request => @Rejected response NetworkError in
  all_falsy o = true
  /\ listAgents c (Some o) net = listAgents c None net
  /\ map url (fst (listAgents c (Some o) net))
     = ["https://clawdnet.xyz/api/agents?"].
Proof.
  intros o c net.
  assert (H : all_falsy o = true) by reflexivity.
  split; [exact H|].
  exact (falsy_options_send_no_parameters c o net H).
Defined.

(** X15.  The methods [heartbeat], [me], [listWebhooks],
    [createWebhook] and [deleteWebhook] send nothing when the client has
    no API key or an empty one: the call rejects with the error of the
    source, whatever the network would answer. *)
Theorem keyless_guarded_call_sends_nothing
    (value : Type) (stringify : value -> exn + string) (empty : value)
    (c : ClawdNet) (i : invocation value) (net : transport) :
  requires_key i = true ->
  falsy (apiKey c) = true ->
  perform stringify empty c i net
  = ([], Rejected (Error match i with
                         | Heartbeat _ => "API key required for heartbeat"
                         | _ => "API key required"
                         end)).
Proof.
  intros Hi Hk.
  destruct i; try discriminate Hi; cbn [perform];
    unfold heartbeat, me, listWebhooks, createWebhook, deleteWebhook;
    rewrite Hk; reflexivity.
Qed.

Lemma keyless_guarded_call_sends_nothing_witness :
  let c := createClient (Some (mkConfig (Some "") None)) in
  let net := fun _ : request => Resolved (mkResponse 200 (Some JNull)) in
  let stringify := fun text : string => @inr exn string text in
  requires_key (@DeleteWebhook string "7") = true
  /\ falsy (apiKey c) = true
  /\ perform stringify "{}" c (DeleteWebhook "7") net
     = ([], Rejected (Error "API key required")).
Proof.
  intros c net stringify.
  assert (Hi : requires_key (@DeleteWebhook string "7") = true)
    by reflexivity.
  assert (Hk : falsy (apiKey c) = true) by reflexivity.
  split; [exact Hi|]. split; [exact Hk|].
  exact (keyless_guarded_call_sends_nothing string stringify "{}" c
           (DeleteWebhook "7") net Hi Hk).
Defined.

(** What a call comes to: it is stopped before anything is sent, by the
    key guard or by [JSON.stringify], or it is one call of the private
    [fetch] on a path below [/api/] with no headers of its own. *)
Lemma perform_cases (value : Type) (stringify : value -> exn + string)
    (empty : value) (c : ClawdNet) (i : invocation value) (net : transport) :
  (exists e, perform stringify empty c i net = ([], Rejected e))
  \/ (exists path options,
        perform stringify empty c i net = fetch_ c path options net
        /\ startsWith "/api/" path = true
        /\ init_headers options = None).
Proof.
  destruct i; cbn [perform];
    unfold register, heartbeat, me, listAgents, getAgent, invoke,
      getTransactions, getCapabilities, listWebhooks, createWebhook,
      deleteWebhook;
    try (destruct (falsy (apiKey c)); [left; eexists; reflexivity|]);
    try match goal with
        | |- context [stringify ?o] =>
            destruct (stringify o); [left; eexists; reflexivity|]
        end;
    right; eexists; eexists;
    (split; [reflexivity | split; reflexivity]).
Qed.

Lemma perform_requests (value : Type) (stringify : value -> exn + string)
    (empty : value) (c : ClawdNet) (i : invocation value) (net : transport)
    (req : request) :
  In req (fst (perform stringify empty c i net)) ->
  exists path options,
    perform stringify empty c i net = fetch_ c path options net
    /\ req = build_request c path options
    /\ startsWith "/api/" path = true
    /\ init_headers options = None.
Proof.
  intros Hin.
  destruct (perform_cases value stringify empty c i net)
    as [(e & E) | (path & options & E & P & Hh)].
  - rewrite E in Hin. destruct Hin.
  - exists path, options. rewrite E in Hin. cbn [fetch_ fst In] in Hin.
    destruct Hin as [<- | []]. auto.
Qed.

(** X17.  Every request a method sends carries
    [Content-Type: application/json] and, exactly when the client has a
    non-empty API key, [Authorization: Bearer <key>]; it carries no
    other header. *)
Theorem requests_carry_credentials
    (value : Type) (stringify : value -> exn + string) (empty : value)
    (c : ClawdNet) (i : invocation value) (net : transport) (req : request) :
  In req (fst (perform stringify empty c i net)) ->
  headers req
  = ("Content-Type", "application/json")
    :: match apiKey c with
       | Some (String a k) =>
           [("Authorization", ("Bearer " ++ String a k)%string)]
       | _ => []
       end.
Proof.
  intros Hin.
  destruct (perform_requests value stringify empty c i net req Hin)
    as (path & options & _ & -> & _ & Hh).
  unfold build_request. rewrite Hh.
  destruct (apiKey c) as [[|a k]|]; reflexivity.
Qed.

Lemma requests_carry_credentials_witness :
  let c := createClient (Some (mkConfig (Some "k1") None)) in
  let net := fun _ : request => @Rejected response NetworkError in
  let stringify := fun text : string => @inr exn string text in
  let req := mkRequest "https://clawdnet.xyz/api/v1/agents/me" None None
               [("Content-Type", "application/json");
                ("Authorization", "Bearer k1")] in
  In req (fst (perform stringify "{}" c Me net))
  /\ headers req
     = [("Content-Type", "application/json"); ("Authorization", "Bearer k1")].
Proof.
  intros c net stringify req.
  assert (Hin : In req (fst (perform stringify "{}" c Me net)))
    by (left; reflexivity).
  split; [exact Hin|].
  exact (requests_carry_credentials string stringify "{}" c Me net req Hin).
Defined.




(** X19.  A method resolves only with the parsed JSON body of a 2xx
    answer to the one request it sent: never after a network failure,
    a status outside 200-299, or a body that is not JSON. *)
Theorem resolves_only_on_success
    (value : Type) (stringify : value -> exn + string) (empty : value)
    (c : ClawdNet) (i : invocation value) (net : transport) (j : json) :
  snd (perform stringify empty c i net) = Resolved j ->
  exists req resp,
    fst (perform stringify empty c i net) = [req]
    /\ net req = Resolved resp
    /\ ok resp = true
    /\ parsed resp = Some j.
Proof.
  intros H.
  destruct (perform_cases value stringify empty c i net)
    as [(e & E) | (path & options & E & _)].
  - rewrite E in H. discriminate H.
  - rewrite E in *. cbn [fetch_ fst snd] in *.
    exists (build_request c path options).
    destruct (net (build_request c path options)) as [resp | e];
      [|discriminate H].
    exists resp. unfold handle_response in H.
    destruct (ok resp).
    + cbn [negb] in H. destruct (parsed resp) as [j'|]; [|discriminate H].
      injection H as ->. auto.
    + cbn [negb] in H.
      destruct (error_property _); discriminate H.
Qed.

Lemma resolves_only_on_success_witness :
  let c := createClient None in
  let net := fun _ : request =>
               Resolved (mkResponse 200 (Some (JString "pong"))) in
  let stringify := fun text : string => @inr exn string text in
  snd (perform stringify "{}" c GetCapabilities net)
  = Resolved (JString "pong")
  /\ exists req resp,
       fst (perform stringify "{}" c GetCapabilities net) = [req]
       /\ net req = Resolved resp
       /\ ok resp = true
       /\ parsed resp = Some (JString "pong").
Proof.
  intros c net stringify.
  assert (H : snd (perform stringify "{}" c GetCapabilities net)
              = Resolved (JString "pong")) by reflexivity.
  split; [exact H|].
  exact (resolves_only_on_success string stringify "{}" c GetCapabilities
           net _ H).
Defined.

(** X20.  An answer with a status outside 200-299 always rejects.  The
    error carries the body's [error] text when that is a non-empty
    string; it carries [Request failed: <status>] when the body is not
    JSON or is an object without an [error] property; and when the body
    is the JSON value [null] the rejection is a [TypeError]. *)
Theorem failed_request_rejects (resp : response) :
  ok resp = false ->
  (exists e, handle_response (Resolved resp) = Rejected e)
  /\ (forall props a s,
        parsed resp = Some (JObject props) ->
        lookup "error" props = Some (JString (String a s)) ->
        handle_response (Resolved resp) = Rejected (Error (String a s)))
  /\ (parsed resp = None
      \/ (exists props, parsed resp = Some (JObject props)
                        /\ lookup "error" props = None) ->
      handle_response (Resolved resp)
      = Rejected (Error ("Request failed: " ++ decimal (status resp))))
  /\ (parsed resp = Some JNull ->
      handle_response (Resolved resp) = Rejected TypeError).
Proof.
  intros Hok. unfold handle_response. rewrite Hok. cbn [negb].
  split; [|split; [|split]].
  - destruct (error_property _); eauto.
  - intros props a s -> Hl. cbn [error_property]. rewrite Hl. reflexivity.
  - intros [-> | (props & -> & Hl)]; cbn [error_property lookup];
      rewrite ?Hl; reflexivity.
  - intros ->. reflexivity.
Qed.

Lemma failed_request_rejects_witness :
  let resp := mkResponse 404 (Some (JObject [("error", JString "gone")])) in
  ok resp = false
  /\ handle_response (Resolved resp) = Rejected (Error "gone").
Proof.
  intros resp.
  assert (Hok : ok resp = false) by reflexivity.
  split; [exact Hok|].
  destruct (failed_request_rejects resp Hok) as (_ & Hmsg & _).
  exact (Hmsg [("error", JString "gone")] "g"%char "one" eq_refl eq_refl).
Defined.

Lemma lookup_set_entry (k v : string) (l : list (string * string)) :
  lookup k (set_entry k v l) = Some v.
Proof.
  induction l as [|[k' v'] r IH].
  - cbn [set_entry lookup]. rewrite String.eqb_refl. reflexivity.
  - cbn [set_entry]. destruct (k' =? k)%string eqn:E.
    + cbn [lookup]. rewrite String.eqb_refl. reflexivity.
    + cbn [lookup]. rewrite E. exact IH.
Qed.

(** X21.  The client's key cannot be displaced by the options of a
    request: when the client has a non-empty API key, the request built
    by the private [fetch] has [Authorization: Bearer <key>], whatever
    headers the options carry. *)
Theorem authorization_not_overridable
    (c : ClawdNet) (path : string) (options : RequestInit)
    (a : ascii) (k : string) :
  apiKey c = Some (String a k) ->
  lookup "Authorization" (headers (build_request c path options))
  = Some ("Bearer " ++ String a k)%string.
Proof.
  intros Hk. unfold build_request. rewrite Hk. cbn [falsy headers].
  apply lookup_set_entry.
Qed.

Lemma authorization_not_overridable_witness :
  let c := mkClient (Some "k1") "https://example.org" in
  let options := mkInit None None (Some [("Authorization", "Bearer other")]) in
  apiKey c = Some "k1"
  /\ lookup "Authorization" (headers (build_request c "/api/x" options))
     = Some "Bearer k1".
Proof.
  intros c options.
  assert (Hk : apiKey c = Some "k1") by reflexivity.
  split; [exact Hk|].
  exact (authorization_not_overridable c "/api/x" options "k"%char "1" Hk).
Defined.

(** X22.  A handle enters the path as it is, without encoding: asking
    for the agent [<h>/transactions?] is the call that lists the
    transactions of [<h>]. *)
Theorem handle_is_not_encoded
    (c : ClawdNet) (h : string) (net : transport) :
  getAgent c (h ++ "/transactions?") net = getTransactions c h None net.
Proof.
  unfold getAgent, getTransactions. reflexivity.
Qed.

Lemma query_fields_survive_witness :
  let params := [("search", "a b&c=d"); ("limit", "10")] in
  params <> []
  /\ split "&"%char (serialize params) = ["search=a+b%26c%3Dd"; "limit=10"].
Proof.
  intros params.
  assert (Hne : params <> []) by discriminate.
  split; [exact Hne|].
  exact (proj1 (proj2 (query_fields_survive params)) Hne).
Defined.
